(** * nn_dataflow: the loop blocking scheme

    A shallow embedding of [nn_dataflow/LoopBlockingScheme.py] and the
    properties of its blocking, fetch, statistics and index-generation
    code.

    Python integers are [Z].  The tiling tuples [ti], [to], [tb] are
    [list Z] (the constructor asserts their length).  Tables indexed by a
    data category or by a loop kind are triples.  Numbers that may be
    floating point (unit costs, the partition occupation, the statistics)
    live in an abstract numeric type, see [PyNum]: no algebraic law is
    assumed about them, so every statement keeps the order in which the
    source multiplies, and a product or a sum may raise [OverflowError],
    as that of an integer and a float does in Python.  A raised exception
    is the left summand of [Exc]. *)

From Stdlib Require Import ZArith QArith List Bool Lia.
Import ListNotations.
Local Open Scope Z_scope.

Set Implicit Arguments.

(* ================================================================== *)
(** ** Enumerations *)

(** Modelled from the spec: the module [DataCategoryEnum] is not part of
    the sources at hand; the data categories are FILTER, IFM, OFM, in this
    order, numbered from zero. *)
Module de.
Inductive t : Set := FIL | IFM | OFM.
Definition NUM : Z := 3.
Definition all : list t := [FIL; IFM; OFM].
Definition eqb (a b : t) : bool :=
    match a, b with
    | FIL, FIL | IFM, IFM | OFM, OFM => true
    | _, _ => false
    end.
End de.

(** Modelled from the spec: the module [LoopEnum] is not part of the
    sources at hand; the loop kinds are IFM, OFM, BAT, in this order,
    numbered from zero. *)
Module le.
Inductive t : Set := IFM | OFM | BAT.
Definition NUM : Z := 3.
Definition to_Z (l : t) : Z :=
    match l with IFM => 0 | OFM => 1 | BAT => 2 end.
Definition all : list t := [IFM; OFM; BAT].
End le.

(** Modelled from the spec: the module [MemHierEnum] is not part of the
    sources at hand; the hierarchy levels are DRAM, GBUF, ITCN
    (interconnect), REGF, in this order. *)
Module me.
Inductive t : Set := DRAM | GBUF | ITCN | REGF.
End me.

(** The local blocking-level enumeration [BL]: GBUF = 0, REGF = 1. *)
Module BL.
Definition GBUF : nat := 0.
Definition REGF : nat := 1.
Definition NUM : nat := 2.
End BL.

(* ================================================================== *)
(** ** Small tables *)

(** A list of [de.NUM] entries, indexed by data category. *)
Definition dtab (A : Type) : Type := (A * A * A)%type.

Definition dget {A} (c : de.t) (x : dtab A) : A :=
  match x, c with
  | (a, _, _), de.FIL => a
  | (_, b, _), de.IFM => b
  | (_, _, d), de.OFM => d
  end.

Definition dset {A} (c : de.t) (v : A) (x : dtab A) : dtab A :=
  match x, c with
  | (_, b, d), de.FIL => (v, b, d)
  | (a, _, d), de.IFM => (a, v, d)
  | (a, b, _), de.OFM => (a, b, v)
  end.

(** A list of [le.NUM] entries, indexed by loop kind. *)
Definition ltab (A : Type) : Type := (A * A * A)%type.

Definition lget {A} (l : le.t) (x : ltab A) : A :=
  match x, l with
  | (a, _, _), le.IFM => a
  | (_, b, _), le.OFM => b
  | (_, _, d), le.BAT => d
  end.

(** A list of [me.NUM] entries, indexed by hierarchy level. *)
Record mtab (A : Type) : Type := MTab
  { m_dram : A; m_gbuf : A; m_itcn : A; m_regf : A }.

Definition mget {A} (m : me.t) (x : mtab A) : A :=
  match m with
  | me.DRAM => m_dram x
  | me.GBUF => m_gbuf x
  | me.ITCN => m_itcn x
  | me.REGF => m_regf x
  end.

(* ================================================================== *)
(** ** Exceptions *)

Inductive exn : Set :=
| AssertionError
| TypeError
| IndexError
| AttributeError
| OverflowError.

Definition Exc (A : Type) : Type := (exn + A)%type.

(* ================================================================== *)
(** ** Numbers *)

(** Sequencing of computations that may fail. *)
Definition obind {A B} (x : option A) (k : A -> option B) : option B :=
  match x with
  | Some a => k a
  | None => None
  end.

Notation "x <~ m ;; k" := (obind m (fun x => k))
  (at level 61, m at next level, right associativity).

(** The arithmetic the statistics need from Python numbers: the embedding
    of an integer, product, sum, and the floats [1.], [float('inf')] and
    [float('nan')].  The product or the sum of an integer and a float
    converts the integer to a float first, which raises [OverflowError]
    when the integer is too large; [None] is that outcome. *)
Class PyNum (F : Type) : Type :=
  { of_int : Z -> F;
    fmul : F -> F -> option F;
    fadd : F -> F -> option F;
    fone : F;
    finf : F;
    fnan : F }.

(** [a * b * c] and [a * b * c * d], multiplied from the left. *)
Definition mul3 {F} {NumF : PyNum F} (a b c : F) : option F :=
  x <~ fmul a b ;; fmul x c.

Definition mul4 {F} {NumF : PyNum F} (a b c d : F) : option F :=
  x <~ mul3 a b c ;; fmul x d.

(** A concrete number type in which no operation raises: rationals with
    the two infinities and the undefined value of floating point. *)
Inductive xnum : Set :=
| Num (q : Q)
| PInf
| NInf
| NaN.

Definition xsign (q : Q) (pos neg : xnum) : xnum :=
  match Qnum q with
  | Z0 => NaN
  | Zpos _ => pos
  | Zneg _ => neg
  end.

Definition xmul (a b : xnum) : xnum :=
  match a, b with
  | NaN, _ | _, NaN => NaN
  | Num x, Num y => Num (Qmult x y)
  | Num x, PInf | PInf, Num x => xsign x PInf NInf
  | Num x, NInf | NInf, Num x => xsign x NInf PInf
  | PInf, PInf | NInf, NInf => PInf
  | PInf, NInf | NInf, PInf => NInf
  end.

Definition xadd (a b : xnum) : xnum :=
  match a, b with
  | NaN, _ | _, NaN => NaN
  | Num x, Num y => Num (Qplus x y)
  | PInf, NInf | NInf, PInf => NaN
  | PInf, _ | _, PInf => PInf
  | NInf, _ | _, NInf => NInf
  end.

#[export] Instance PyNum_xnum : PyNum xnum :=
  {| of_int := fun z => Num (inject_Z z);
     fmul := fun a b => Some (xmul a b);
     fadd := fun a b => Some (xadd a b);
     fone := Num 1; finf := PInf; fnan := NaN |}.

(** A concrete number type with Python's two kinds of numbers: integers
    of any size, and floats.  The floats are those of [xnum] within the
    range of a double: the mantissa is not rounded and nothing underflows,
    but a result from [2 ** 1024 - 2 ** 970] on, the first value that
    rounds beyond the largest float, is an infinity.  Converting an
    integer operand of that size raises [OverflowError]. *)
Inductive pynum : Set :=
| PyInt (z : Z)
| PyFloat (x : xnum).

Definition float_bound : Z := 2 ^ 1024 - 2 ^ 970.

Definition float_of_int (z : Z) : option xnum :=
  if Z.abs z <? float_bound then Some (Num (inject_Z z)) else None.

Definition to_float (a : pynum) : option xnum :=
  match a with
  | PyInt z => float_of_int z
  | PyFloat x => Some x
  end.

(** The float a result of float arithmetic is stored as. *)
Definition in_range (x : xnum) : xnum :=
  match x with
  | Num q =>
      if Qle_bool (inject_Z float_bound) q then PInf
      else if Qle_bool q (inject_Z (- float_bound)) then NInf
      else Num q
  | _ => x
  end.

Definition pymul (a b : pynum) : option pynum :=
  match a, b with
  | PyInt x, PyInt y => Some (PyInt (x * y))
  | _, _ =>
      x <~ to_float a ;; y <~ to_float b ;;
      Some (PyFloat (in_range (xmul x y)))
  end.

Definition pyadd (a b : pynum) : option pynum :=
  match a, b with
  | PyInt x, PyInt y => Some (PyInt (x + y))
  | _, _ =>
      x <~ to_float a ;; y <~ to_float b ;;
      Some (PyFloat (in_range (xadd x y)))
  end.

#[export] Instance PyNum_pynum : PyNum pynum :=
  {| of_int := PyInt;
     fmul := pymul; fadd := pyadd;
     fone := PyFloat (Num 1); finf := PyFloat PInf; fnan := PyFloat NaN |}.

(** Modelled from the spec: the module [Util] is not part of the sources
    at hand; [Util.prod] is the product of a sequence of factors, 1 for
    the empty one. *)
Module Util.
Definition prod (l : list Z) : Z := fold_left Z.mul l 1.
End Util.

(** [sum] over a sequence of integers. *)
Definition zsum (l : list Z) : Z := fold_left Z.add l 0.

(** The integer value of a Python boolean. *)
Definition b2z (b : bool) : Z := if b then 1 else 0.

(* ================================================================== *)
(** ** External input records *)

Section Scheme.

Context {F : Type} {NumF : PyNum F}.

(** The nested loop descriptor: loop counts, unit buffer sizes and unit
    costs. *)
Record NestedLoopDesc : Type :=
  { loopcnt_ifm : Z;
    loopcnt_ofm : Z;
    loopcnt_bat : Z;
    usize_gbuf : dtab Z;
    usize_regf : dtab Z;
    nld_unit_ops : F;
    nld_unit_time : F;
    nld_unit_access : mtab (dtab F) }.

Record Resource : Type :=
  { size_gbuf : Z;
    size_regf : Z }.

Record Option_ : Type :=
  { sw_gbuf_bypass : dtab bool }.

Record Cost : Type :=
  { mac_op : F;
    mem_hier : mtab F;
    unit_static : F }.

(* ================================================================== *)
(** ** The scheme record *)

(** The attributes set at the very end of a successful construction. *)
Record Stats : Type :=
  { unit_ops : F;
    unit_time : F;
    unit_access : mtab (dtab F);
    part_occ : F;
    finalized_stats : bool;
    ops : F;
    time : F;
    access : mtab (dtab F) }.

(** An instance of [LoopBlockingScheme].  [fetch] is [None] while the
    attribute does not exist (the first size check failed); [stats] is
    [None] while the attributes of [Stats] do not exist (either size
    check failed). *)
Record LoopBlockingScheme : Type :=
  { ti : list Z;
    to : list Z;
    tb : list Z;
    orders : list (ltab Z);
    tip : Z;
    top : Z;
    tbp : Z;
    unit_size : list (dtab Z);
    unit_cnt : list (dtab Z);
    stored_in_gbuf : dtab bool;
    valid : bool;
    fetch : option (list (dtab Z));
    stats : option Stats }.

(** Indexing a tuple or list at an index known to be in range; the
    default stands where Python would raise [IndexError]. *)
Definition zidx (l : list Z) (i : nat) : Z := nth i l 0.
Definition tidx (l : list (dtab Z)) (i : nat) : dtab Z := nth i l (0, 0, 0).
Definition oidx (l : list (ltab Z)) (i : nat) : ltab Z := nth i l (0, 0, 0).

(** The object before [__init__] has set anything. *)
Definition blank : LoopBlockingScheme :=
  {| ti := []; to := []; tb := []; orders := [];
     tip := 0; top := 0; tbp := 0;
     unit_size := []; unit_cnt := [];
     stored_in_gbuf := (false, false, false);
     valid := false; fetch := None; stats := None |}.

Definition set_tiling (xi xo xb : list Z) (s : LoopBlockingScheme) :=
  {| ti := xi; to := xo; tb := xb; orders := orders s;
     tip := tip s; top := top s; tbp := tbp s;
     unit_size := unit_size s; unit_cnt := unit_cnt s;
     stored_in_gbuf := stored_in_gbuf s;
     valid := valid s; fetch := fetch s; stats := stats s |}.

Definition set_orders (o : list (ltab Z)) (s : LoopBlockingScheme) :=
  {| ti := ti s; to := to s; tb := tb s; orders := o;
     tip := tip s; top := top s; tbp := tbp s;
     unit_size := unit_size s; unit_cnt := unit_cnt s;
     stored_in_gbuf := stored_in_gbuf s;
     valid := valid s; fetch := fetch s; stats := stats s |}.

Definition set_prods (pi po pb : Z) (s : LoopBlockingScheme) :=
  {| ti := ti s; to := to s; tb := tb s; orders := orders s;
     tip := pi; top := po; tbp := pb;
     unit_size := unit_size s; unit_cnt := unit_cnt s;
     stored_in_gbuf := stored_in_gbuf s;
     valid := valid s; fetch := fetch s; stats := stats s |}.

Definition set_unit_size (u : list (dtab Z)) (s : LoopBlockingScheme) :=
  {| ti := ti s; to := to s; tb := tb s; orders := orders s;
     tip := tip s; top := top s; tbp := tbp s;
     unit_size := u; unit_cnt := unit_cnt s;
     stored_in_gbuf := stored_in_gbuf s;
     valid := valid s; fetch := fetch s; stats := stats s |}.

Definition set_unit_cnt (u : list (dtab Z)) (s : LoopBlockingScheme) :=
  {| ti := ti s; to := to s; tb := tb s; orders := orders s;
     tip := tip s; top := top s; tbp := tbp s;
     unit_size := unit_size s; unit_cnt := u;
     stored_in_gbuf := stored_in_gbuf s;
     valid := valid s; fetch := fetch s; stats := stats s |}.

Definition set_stored_in_gbuf (g : dtab bool) (s : LoopBlockingScheme) :=
  {| ti := ti s; to := to s; tb := tb s; orders := orders s;
     tip := tip s; top := top s; tbp := tbp s;
     unit_size := unit_size s; unit_cnt := unit_cnt s;
     stored_in_gbuf := g;
     valid := valid s; fetch := fetch s; stats := stats s |}.

Definition set_valid (v : bool) (s : LoopBlockingScheme) :=
  {| ti := ti s; to := to s; tb := tb s; orders := orders s;
     tip := tip s; top := top s; tbp := tbp s;
     unit_size := unit_size s; unit_cnt := unit_cnt s;
     stored_in_gbuf := stored_in_gbuf s;
     valid := v; fetch := fetch s; stats := stats s |}.

Definition set_fetch (f : option (list (dtab Z))) (s : LoopBlockingScheme) :=
  {| ti := ti s; to := to s; tb := tb s; orders := orders s;
     tip := tip s; top := top s; tbp := tbp s;
     unit_size := unit_size s; unit_cnt := unit_cnt s;
     stored_in_gbuf := stored_in_gbuf s;
     valid := valid s; fetch := f; stats := stats s |}.

Definition set_stats (st : option Stats) (s : LoopBlockingScheme) :=
  {| ti := ti s; to := to s; tb := tb s; orders := orders s;
     tip := tip s; top := top s; tbp := tbp s;
     unit_size := unit_size s; unit_cnt := unit_cnt s;
     stored_in_gbuf := stored_in_gbuf s;
     valid := valid s; fetch := fetch s; stats := st |}.

(* ================================================================== *)
(** ** Methods as state transformers that may raise *)

(** A method body: from the object to an outcome and the object it
    leaves behind.  A raise keeps whatever was assigned before it. *)
Definition M (A : Type) : Type :=
  LoopBlockingScheme -> Exc A * LoopBlockingScheme.

Definition ret {A} (a : A) : M A := fun s => (inr a, s).
Definition raise {A} (e : exn) : M A := fun s => (inl e, s).
Definition bind {A B} (m : M A) (k : A -> M B) : M B :=
  fun s =>
    match m s with
    | (inl e, s') => (inl e, s')
    | (inr a, s') => k a s'
    end.
Definition gets {A} (f : LoopBlockingScheme -> A) : M A :=
  fun s => (inr (f s), s).
Definition modify (f : LoopBlockingScheme -> LoopBlockingScheme) : M unit :=
  fun s => (inr tt, f s).

Notation "x <- m ;; k" := (bind m (fun x => k))
  (at level 61, m at next level, right associativity).
Notation "m ;;; k" := (bind m (fun _ => k))
  (at level 61, right associativity).

(** [assert b]. *)
Definition py_assert (b : bool) : M unit :=
  if b then ret tt else raise AssertionError.

(** Reading an attribute that [__init__] may have left unset. *)
Definition attr {A} (f : LoopBlockingScheme -> option A) : M A :=
  fun s =>
    match f s with
    | Some a => (inr a, s)
    | None => (inl AttributeError, s)
    end.

(** [for x in xs: body x]. *)
Fixpoint for_each {A} (xs : list A) (body : A -> M unit) : M unit :=
  match xs with
  | [] => ret tt
  | x :: xs' => body x ;;; for_each xs' body
  end.

(** [is_valid]. *)
Definition is_valid (s : LoopBlockingScheme) : bool := valid s.

(** [data_size(blvl, dce)] for a given category. *)
Definition data_size_of (s : LoopBlockingScheme) (blvl : nat) (dce : de.t) : Z :=
  let size := dget dce (tidx (unit_cnt s) blvl)
              * dget dce (tidx (unit_size s) blvl) in
  if Nat.eqb blvl BL.GBUF
  then size * (if dget dce (stored_in_gbuf s) then 1 else 0)
  else size.

(** [data_size(blvl)]: the sum over all data categories. *)
Definition data_size (s : LoopBlockingScheme) (blvl : nat) : Z :=
  zsum (map (data_size_of s blvl) de.all).

(** [_set_unit_cnt]: the body of the loop over [bl], then the method. *)
Definition unit_cnt_level (s : LoopBlockingScheme) (bl : nat) : dtab Z :=
  let blp1 := S bl in
  let pblti := Util.prod (skipn blp1 (ti s)) in
  let pblto := Util.prod (skipn blp1 (to s)) in
  let pbltb := Util.prod (skipn blp1 (tb s)) in
  (pblti * pblto, pblti * pbltb, pblto * pbltb).

Definition _set_unit_cnt : M unit :=
  modify (set_unit_cnt []) ;;;
  for_each (seq 0 BL.NUM) (fun bl =>
    modify (fun s => set_unit_cnt (unit_cnt s ++ [unit_cnt_level s bl]) s)).

(* ------------------------------------------------------------------ *)
(** *** The innermost non-trivial loop *)

(** The second component of the tuples compared by [min]: a loop
    position or [float('inf')]. *)
Inductive ordval : Set :=
| Fin (z : Z)
| Inf.

Definition ordval_ltb (a b : ordval) : bool :=
  match a, b with
  | Fin x, Fin y => x <? y
  | Fin _, Inf => true
  | Inf, _ => false
  end.

Definition ordval_eqb (a b : ordval) : bool :=
  match a, b with
  | Fin x, Fin y => x =? y
  | Inf, Inf => true
  | _, _ => false
  end.

(** The third component: a loop kind or [None]; [None] sorts first. *)
Definition lp_ltb (a b : option le.t) : bool :=
  match a, b with
  | None, Some _ => true
  | Some x, Some y => le.to_Z x <? le.to_Z y
  | _, None => false
  end.

Definition nt_tuple : Set := (bool * ordval * option le.t)%type.

(** Lexicographic comparison of tuples, [False < True]. *)
Definition nt_tuple_ltb (a b : nt_tuple) : bool :=
  match a, b with
  | (a1, a2, a3), (b1, b2, b3) =>
      if Bool.eqb a1 b1
      then if ordval_eqb a2 b2 then lp_ltb a3 b3 else ordval_ltb a2 b2
      else negb a1
  end.

(** [min] of at least one argument: the first of the smallest ones. *)
Definition py_min (x : nt_tuple) (xs : list nt_tuple) : nt_tuple :=
  fold_left (fun m y => if nt_tuple_ltb y m then y else m) xs x.

(** [_innermost_nontrivial_loop(bl_lvl)]. *)
Definition _innermost_nontrivial_loop (s : LoopBlockingScheme) (bl_lvl : nat)
  : option le.t :=
  let order := oidx (orders s) bl_lvl in
  snd (py_min
         (zidx (ti s) bl_lvl =? 1, Fin (lget le.IFM order), Some le.IFM)
         [ (zidx (to s) bl_lvl =? 1, Fin (lget le.OFM order), Some le.OFM);
           (zidx (tb s) bl_lvl =? 1, Fin (lget le.BAT order), Some le.BAT);
           (false, Inf, None) ]).

(* ------------------------------------------------------------------ *)
(** *** Fetch counts *)

(** [innermost_nt_lp != lp], as the integer added to [bl]. *)
Definition lp_neq (a : option le.t) (lp : le.t) : nat :=
  match a with
  | Some x => if le.to_Z x =? le.to_Z lp then 0%nat else 1%nat
  | None => 1%nat
  end.

(** The body of the loop over [bl] in [_set_fetch]: the entry [fe]
    appended to [self.fetch], given the entries appended so far. *)
Definition fetch_level (s : LoopBlockingScheme) (sofar : list (dtab Z))
           (bl : nat) : dtab Z :=
  let innermost_nt_lp := _innermost_nontrivial_loop s bl in
  let fe_fil :=
    if zidx (ti s) bl * zidx (to s) bl =? 1
    then (if (0 <? bl)%nat then dget de.FIL (tidx sofar (bl - 1)) else 1)
    else
      let bl_start := (bl + lp_neq innermost_nt_lp le.BAT)%nat in
      Util.prod (firstn bl_start (tb s)) in
  let fe_ifm :=
    if zidx (ti s) bl * zidx (tb s) bl =? 1
    then (if (0 <? bl)%nat then dget de.IFM (tidx sofar (bl - 1)) else 1)
    else
      let bl_start := (bl + lp_neq innermost_nt_lp le.OFM)%nat in
      Util.prod (firstn bl_start (to s)) in
  let fe_ofm :=
    if zidx (to s) bl * zidx (tb s) bl =? 1
    then (if (0 <? bl)%nat then dget de.OFM (tidx sofar (bl - 1)) else 1)
    else
      let bl_start := (bl + lp_neq innermost_nt_lp le.IFM)%nat in
      2 * Util.prod (firstn bl_start (ti s)) - 1 in
  (fe_fil, fe_ifm, fe_ofm).

(** [_set_fetch]. *)
Definition _set_fetch : M unit :=
  modify (set_fetch (Some [])) ;;;
  for_each (seq 0 BL.NUM) (fun bl =>
    sofar <- attr fetch ;;
    modify (fun s => set_fetch (Some (sofar ++ [fetch_level s sofar bl])) s)).

(* ------------------------------------------------------------------ *)
(** *** Construction *)

Definition dmap {A B} (f : A -> B) (x : dtab A) : dtab B :=
  match x with (a, b, c) => (f a, f b, f c) end.

(** The size test made twice by [__init__]. *)
Definition size_exceeds (resource : Resource) (s : LoopBlockingScheme) : bool :=
  (data_size s BL.REGF >? size_regf resource)
  || (data_size s BL.GBUF >? size_gbuf resource).

(** The loop of [__init__] that settles [stored_in_gbuf]. *)
Definition resolve_stored (options : Option_) (dce : de.t) : M unit :=
  stored <- gets stored_in_gbuf ;;
  if dget dce stored then ret tt
  else
    py_assert (dget dce (sw_gbuf_bypass options)) ;;;
    fe <- attr fetch ;;
    if dget dce (tidx fe BL.GBUF) <? dget dce (tidx fe BL.REGF)
    then modify (fun s => set_stored_in_gbuf (dset dce true (stored_in_gbuf s)) s)
    else ret tt.

(** The first part of [__init__]: everything up to and including the
    first assignment of [stored_in_gbuf]. *)
Definition init_head (nested_loop_desc : NestedLoopDesc)
           (tifm tofm tbat : list Z) (orders_ : mtab (ltab Z))
           (options : Option_) : M unit :=
  modify (set_tiling tifm tofm tbat) ;;;
  modify (set_orders [mget me.GBUF orders_; mget me.REGF orders_]) ;;;
  modify (fun s => set_prods (Util.prod (ti s)) (Util.prod (to s)) (Util.prod (tb s)) s) ;;;
  xi <- gets ti ;; xo <- gets to ;; xb <- gets tb ;;
  py_assert (Nat.eqb (length xi) (BL.NUM + 1)) ;;;
  py_assert (Nat.eqb (length xo) (BL.NUM + 1)) ;;;
  py_assert (Nat.eqb (length xb) (BL.NUM + 1)) ;;;
  pi <- gets tip ;; po <- gets top ;; pb <- gets tbp ;;
  py_assert (pi >=? loopcnt_ifm nested_loop_desc) ;;;
  py_assert (po >=? loopcnt_ofm nested_loop_desc) ;;;
  py_assert (pb >=? loopcnt_bat nested_loop_desc) ;;;
  modify (set_unit_size [usize_gbuf nested_loop_desc;
                         usize_regf nested_loop_desc]) ;;;
  _set_unit_cnt ;;;
  modify (set_stored_in_gbuf (dmap negb (sw_gbuf_bypass options))).

(** The rest of [__init__]: the two size checks and what lies between
    and after them. *)
Definition init_tail (nested_loop_desc : NestedLoopDesc)
           (resource : Resource) (options : Option_) : M unit :=
  over <- gets (size_exceeds resource) ;;
  if over then modify (set_valid false)
  else
    modify (set_valid true) ;;;
    _set_fetch ;;;
    for_each de.all (resolve_stored options) ;;;
    over' <- gets (size_exceeds resource) ;;
    if over' then modify (set_valid false)
    else
      modify (set_stats (Some
        {| unit_ops := nld_unit_ops nested_loop_desc;
           unit_time := nld_unit_time nested_loop_desc;
           unit_access := nld_unit_access nested_loop_desc;
           part_occ := fone;
           finalized_stats := false;
           ops := fnan;
           time := fnan;
           access := MTab (fnan, fnan, fnan) (fnan, fnan, fnan)
                          (fnan, fnan, fnan) (fnan, fnan, fnan) |})).

(** The body of [__init__], run on the blank object. *)
Definition init_body (nested_loop_desc : NestedLoopDesc)
           (tifm tofm tbat : list Z) (orders_ : mtab (ltab Z))
           (resource : Resource) (options : Option_) : M unit :=
  init_head nested_loop_desc tifm tofm tbat orders_ options ;;;
  init_tail nested_loop_desc resource options.

(** [LoopBlockingScheme(...)]: the constructed object, or the exception
    that escaped [__init__]. *)
Definition init (nested_loop_desc : NestedLoopDesc)
           (tifm tofm tbat : list Z) (orders_ : mtab (ltab Z))
           (resource : Resource) (options : Option_) : Exc LoopBlockingScheme :=
  match init_body nested_loop_desc tifm tofm tbat orders_ resource options blank with
  | (inl e, _) => inl e
  | (inr _, s) => inr s
  end.

(* ------------------------------------------------------------------ *)
(** *** Statistics *)

Definition set_m_dram {A} (v : A) (x : mtab A) : mtab A :=
  MTab v (m_gbuf x) (m_itcn x) (m_regf x).
Definition set_m_gbuf {A} (v : A) (x : mtab A) : mtab A :=
  MTab (m_dram x) v (m_itcn x) (m_regf x).
Definition set_m_itcn {A} (v : A) (x : mtab A) : mtab A :=
  MTab (m_dram x) (m_gbuf x) v (m_regf x).
Definition set_m_regf {A} (v : A) (x : mtab A) : mtab A :=
  MTab (m_dram x) (m_gbuf x) (m_itcn x) v.

Definition set_m {A} (m : me.t) (v : A) (x : mtab A) : mtab A :=
  match m with
  | me.DRAM => set_m_dram v x
  | me.GBUF => set_m_gbuf v x
  | me.ITCN => set_m_itcn v x
  | me.REGF => set_m_regf v x
  end.

(** List comprehensions over [zip] of two, three and four tables. *)
Definition dzip2 {A B C} (f : A -> B -> C) (x : dtab A) (y : dtab B) : dtab C :=
  match x, y with
  | (a1, a2, a3), (b1, b2, b3) => (f a1 b1, f a2 b2, f a3 b3)
  end.

Definition dzip3 {A B C D} (f : A -> B -> C -> D)
           (x : dtab A) (y : dtab B) (z : dtab C) : dtab D :=
  match x, y, z with
  | (a1, a2, a3), (b1, b2, b3), (c1, c2, c3) =>
      (f a1 b1 c1, f a2 b2 c2, f a3 b3 c3)
  end.

Definition dzip4 {A B C D E} (f : A -> B -> C -> D -> E)
           (x : dtab A) (y : dtab B) (z : dtab C) (w : dtab D) : dtab E :=
  match x, y, z, w with
  | (a1, a2, a3), (b1, b2, b3), (c1, c2, c3), (d1, d2, d3) =>
      (f a1 b1 c1 d1, f a2 b2 c2 d2, f a3 b3 c3 d3)
  end.

(** [total_units] of [_calc_stats]. *)
Definition total_units (s : LoopBlockingScheme) : dtab Z :=
  (tip s * top s, tip s * tbp s, top s * tbp s).

Definition st_set_ops (v : F) (st : Stats) : Stats :=
  {| unit_ops := unit_ops st; unit_time := unit_time st;
     unit_access := unit_access st; part_occ := part_occ st;
     finalized_stats := finalized_stats st;
     ops := v; time := time st; access := access st |}.

Definition st_set_time (v : F) (st : Stats) : Stats :=
  {| unit_ops := unit_ops st; unit_time := unit_time st;
     unit_access := unit_access st; part_occ := part_occ st;
     finalized_stats := finalized_stats st;
     ops := ops st; time := v; access := access st |}.

Definition st_set_access (m : me.t) (v : dtab F) (st : Stats) : Stats :=
  {| unit_ops := unit_ops st; unit_time := unit_time st;
     unit_access := unit_access st; part_occ := part_occ st;
     finalized_stats := finalized_stats st;
     ops := ops st; time := time st; access := set_m m v (access st) |}.

Definition st_set_finalized (b : bool) (st : Stats) : Stats :=
  {| unit_ops := unit_ops st; unit_time := unit_time st;
     unit_access := unit_access st; part_occ := part_occ st;
     finalized_stats := b;
     ops := ops st; time := time st; access := access st |}.

Definition st_set_part_occ (v : F) (st : Stats) : Stats :=
  {| unit_ops := unit_ops st; unit_time := unit_time st;
     unit_access := unit_access st; part_occ := v;
     finalized_stats := finalized_stats st;
     ops := ops st; time := time st; access := access st |}.

(** An assignment to one of the attributes grouped in [Stats]. *)
Definition assign (f : LoopBlockingScheme -> Stats -> Stats) : M unit :=
  st <- attr stats ;;
  modify (fun s => set_stats (Some (f s st)) s).

(** The value of an arithmetic expression, or [OverflowError]. *)
Definition num {A} (r : option A) : M A :=
  match r with
  | Some a => ret a
  | None => raise OverflowError
  end.

(** A list comprehension over a table, entry by entry; it raises when an
    entry does. *)
Definition dall {A} (x : dtab (option A)) : option (dtab A) :=
  match x with
  | (a, b, c) => a' <~ a ;; b' <~ b ;; c' <~ c ;; Some (a', b', c')
  end.

(** An assignment to an attribute grouped in [Stats] of a value whose
    computation may raise: nothing is assigned when it does. *)
Definition assign_num {A} (e : LoopBlockingScheme -> Stats -> option A)
           (set : A -> Stats -> Stats) : M unit :=
  st <- attr stats ;;
  s <- gets (fun s => s) ;;
  v <- num (e s st) ;;
  assign (fun _ st => set v st).

(** [_calc_stats]. *)
Definition _calc_stats : M unit :=
  lcnt <- gets (fun s => tip s * top s * tbp s) ;;
  assign_num
    (fun _ st => mul3 (unit_ops st) (of_int lcnt) (part_occ st))
    st_set_ops ;;;
  assign_num
    (fun _ st => fmul (unit_time st) (of_int lcnt))
    st_set_time ;;;
  assign_num
    (fun _ st =>
       dall (dzip2 (fun v t => mul4 v (of_int lcnt) (of_int t) (part_occ st))
                   (mget me.REGF (unit_access st)) (1, 1, 2)))
    (st_set_access me.REGF) ;;;
  fe <- attr fetch ;;
  assign_num
    (fun s st =>
       dall (dzip3 (fun v u f => mul3 v (of_int u) (of_int f))
                   (mget me.ITCN (unit_access st)) (total_units s)
                   (tidx fe BL.REGF)))
    (st_set_access me.ITCN) ;;;
  fe <- attr fetch ;;
  assign_num
    (fun s st =>
       dall (dzip4 (fun v u f g => mul4 v (of_int u) (of_int f) (of_int (b2z g)))
                   (mget me.GBUF (unit_access st)) (total_units s)
                   (tidx fe BL.REGF) (stored_in_gbuf s)))
    (st_set_access me.GBUF) ;;;
  fe <- attr fetch ;;
  assign_num
    (fun s st =>
       dall (dzip3 (fun v u f => mul3 v (of_int u) (of_int f))
                   (mget me.DRAM (unit_access st)) (total_units s)
                   (tidx fe BL.GBUF)))
    (st_set_access me.DRAM) ;;;
  assign (fun _ st => st_set_finalized true st).

(** [if not self.finalized_stats: self._calc_stats()]. *)
Definition ensure_stats : M unit :=
  st <- attr stats ;;
  if finalized_stats st then ret tt else _calc_stats.

(** [set_partition_occupation(part_occ)]. *)
Definition set_partition_occupation (p : F) : M unit :=
  v <- gets is_valid ;;
  if negb v then ret tt
  else
    st <- attr stats ;;
    py_assert (negb (finalized_stats st)) ;;;
    assign (fun _ st => st_set_part_occ p st).

(** [get_access()]; [None] is Python's [None]. *)
Definition get_access : M (option (mtab (dtab F))) :=
  v <- gets is_valid ;;
  if negb v then ret None
  else
    ensure_stats ;;;
    st <- attr stats ;;
    ret (Some (access st)).

(** [get_top_level_fetch()]. *)
Definition get_top_level_fetch : M (option (dtab Z)) :=
  v <- gets is_valid ;;
  if negb v then ret None
  else
    ensure_stats ;;;
    fe <- attr fetch ;;
    ret (Some (tidx fe BL.GBUF)).

(** [sum] over a table of numbers, starting from the integer 0. *)
Definition dsum (x : dtab F) : option F :=
  match x with
  | (a, b, c) =>
      x0 <~ fadd (of_int 0) a ;; x1 <~ fadd x0 b ;; fadd x1 c
  end.

(** The sum [get_cost] forms from the operations, the access table, the
    time and the weights of a cost model, step by step as the method
    does: [c = 0], [c += ops * mac_op], the row totals, [c += sum(...)]
    over the four hierarchy levels, [c += time * unit_static]. *)
Definition cost_of (ops_ time_ : F) (acc : mtab (dtab F)) (cost : Cost)
  : option F :=
  let c := of_int 0 in
  x <~ fmul ops_ (mac_op cost) ;;
  c <~ fadd c x ;;
  t_dram <~ dsum (m_dram acc) ;;
  t_gbuf <~ dsum (m_gbuf acc) ;;
  t_itcn <~ dsum (m_itcn acc) ;;
  t_regf <~ dsum (m_regf acc) ;;
  let mc := mem_hier cost in
  let sm := of_int 0 in
  x <~ fmul (m_dram mc) t_dram ;;
  sm <~ fadd sm x ;;
  x <~ fmul (m_gbuf mc) t_gbuf ;;
  sm <~ fadd sm x ;;
  x <~ fmul (m_itcn mc) t_itcn ;;
  sm <~ fadd sm x ;;
  x <~ fmul (m_regf mc) t_regf ;;
  sm <~ fadd sm x ;;
  c <~ fadd c sm ;;
  x <~ fmul time_ (unit_static cost) ;;
  fadd c x.

(** [get_cost(cost)]. *)
Definition get_cost (cost : Cost) : M F :=
  v <- gets is_valid ;;
  if negb v then ret finf
  else
    ensure_stats ;;;
    st <- attr stats ;;
    num (cost_of (ops st) (time st) (access st) cost).

(** The summary returned by [get_scheme_dict]. *)
Record SchemeDict : Type :=
  { sd_ops : F;
    sd_time : F;
    sd_access : mtab (dtab F);
    sd_fetch : list (dtab Z);
    sd_size : list (dtab Z);
    sd_unit_size : list (dtab Z);
    sd_unit_cnt : list (dtab Z);
    sd_part_occ : F;
    sd_ti : list Z;
    sd_to : list Z;
    sd_tb : list Z;
    sd_orders : list (ltab Z) }.

(** [get_scheme_dict()]. *)
Definition get_scheme_dict : M (option SchemeDict) :=
  v <- gets is_valid ;;
  if negb v then ret None
  else
    ensure_stats ;;;
    size <- gets (fun s =>
      map (fun bl => (data_size_of s bl de.FIL, data_size_of s bl de.IFM,
                      data_size_of s bl de.OFM)) (seq 0 BL.NUM)) ;;
    st <- attr stats ;;
    fe <- attr fetch ;;
    s <- gets (fun s => s) ;;
    ret (Some {| sd_ops := ops st; sd_time := time st;
                 sd_access := access st; sd_fetch := fe;
                 sd_size := size; sd_unit_size := unit_size s;
                 sd_unit_cnt := unit_cnt s; sd_part_occ := part_occ st;
                 sd_ti := ti s; sd_to := to s; sd_tb := tb s;
                 sd_orders := orders s |}).

(* ------------------------------------------------------------------ *)
(** *** Index generation *)












(* ------------------------------------------------------------------ *)
(** *** The lifetime of a record *)

(** A call of a public method. *)
Inductive call : Type :=
| Call_is_valid
| Call_data_size (blvl : nat) (dce : option de.t)
| Call_set_partition_occupation (p : F)
| Call_get_access
| Call_get_top_level_fetch
| Call_get_cost (cost : Cost)
| Call_get_scheme_dict
| Call_gen_index.

(** The object a call leaves behind, whether it returned or raised. *)
Definition after (c : call) (s : LoopBlockingScheme) : LoopBlockingScheme :=
  match c with
  | Call_is_valid => s
  | Call_data_size _ _ => s
  | Call_set_partition_occupation p => snd (set_partition_occupation p s)
  | Call_get_access => snd (get_access s)
  | Call_get_top_level_fetch => snd (get_top_level_fetch s)
  | Call_get_cost cost => snd (get_cost cost s)
  | Call_get_scheme_dict => snd (get_scheme_dict s)
  | Call_gen_index => s
  end.

(** The records a caller can hold: a constructed one, after any number
    of calls. *)
Inductive reachable (nested_loop_desc : NestedLoopDesc)
          (tifm tofm tbat : list Z) (orders_ : mtab (ltab Z))
          (resource : Resource) (options : Option_)
  : LoopBlockingScheme -> Prop :=
| reach_init s :
    init nested_loop_desc tifm tofm tbat orders_ resource options = inr s ->
    reachable nested_loop_desc tifm tofm tbat orders_ resource options s
| reach_call s c :
    reachable nested_loop_desc tifm tofm tbat orders_ resource options s ->
    reachable nested_loop_desc tifm tofm tbat orders_ resource options (after c s).

(* ================================================================== *)
(** ** The stages of construction, as plain functions

    These describe the object [__init__] holds at each of its size
    checks; [init_eq] below shows that the constructor computes them. *)

(** The asserts of [__init__]. *)
Definition args_ok (nld : NestedLoopDesc) (tifm tofm tbat : list Z) : bool :=
  Nat.eqb (length tifm) 3 && Nat.eqb (length tofm) 3 && Nat.eqb (length tbat) 3
  && (Util.prod tifm >=? loopcnt_ifm nld)
  && (Util.prod tofm >=? loopcnt_ofm nld)
  && (Util.prod tbat >=? loopcnt_bat nld).

(** The object at the first size check. *)
Definition at_first_check (nld : NestedLoopDesc) (tifm tofm tbat : list Z)
           (orders_ : mtab (ltab Z)) (options : Option_) : LoopBlockingScheme :=
  let s1 := set_prods (Util.prod tifm) (Util.prod tofm) (Util.prod tbat)
              (set_orders [mget me.GBUF orders_; mget me.REGF orders_]
                 (set_tiling tifm tofm tbat blank)) in
  let s2 := set_unit_size [usize_gbuf nld; usize_regf nld] s1 in
  let s3 := set_unit_cnt [unit_cnt_level s2 0; unit_cnt_level s2 1] s2 in
  set_stored_in_gbuf (dmap negb (sw_gbuf_bypass options)) s3.

(** The two entries of [self.fetch]. *)
Definition fetch_table (s : LoopBlockingScheme) : list (dtab Z) :=
  let fe0 := fetch_level s [] 0 in
  [fe0; fetch_level s [fe0] 1].

(** The flags after the loop that settles [stored_in_gbuf]. *)
Definition resolved_flags (fe : list (dtab Z)) (g : dtab bool) : dtab bool :=
  dzip3 (fun b f0 f1 => b || (f0 <? f1)) g (tidx fe BL.GBUF) (tidx fe BL.REGF).

(** The object at the second size check. *)
Definition at_second_check (s : LoopBlockingScheme) : LoopBlockingScheme :=
  let s1 := set_fetch (Some (fetch_table s)) (set_valid true s) in
  set_stored_in_gbuf (resolved_flags (fetch_table s) (stored_in_gbuf s)) s1.

(** The statistics attributes as [__init__] leaves them. *)
Definition fresh_stats (nld : NestedLoopDesc) : Stats :=
  {| unit_ops := nld_unit_ops nld;
     unit_time := nld_unit_time nld;
     unit_access := nld_unit_access nld;
     part_occ := fone;
     finalized_stats := false;
     ops := fnan;
     time := fnan;
     access := MTab (fnan, fnan, fnan) (fnan, fnan, fnan)
                    (fnan, fnan, fnan) (fnan, fnan, fnan) |}.

(** The six values [_calc_stats] computes, in the order in which it
    computes them; [None] where the computation raises. *)
Record StatValues : Type :=
  { v_ops : option F;
    v_time : option F;
    v_regf : option (dtab F);
    v_itcn : option (dtab F);
    v_gbuf : option (dtab F);
    v_dram : option (dtab F) }.

Definition stat_values (s : LoopBlockingScheme) (fe : list (dtab Z))
           (st : Stats) : StatValues :=
  let lcnt := tip s * top s * tbp s in
  {| v_ops := mul3 (unit_ops st) (of_int lcnt) (part_occ st);
     v_time := fmul (unit_time st) (of_int lcnt);
     v_regf :=
       dall (dzip2 (fun v t => mul4 v (of_int lcnt) (of_int t) (part_occ st))
                   (mget me.REGF (unit_access st)) (1, 1, 2));
     v_itcn :=
       dall (dzip3 (fun v u f => mul3 v (of_int u) (of_int f))
                   (mget me.ITCN (unit_access st)) (total_units s)
                   (tidx fe BL.REGF));
     v_gbuf :=
       dall (dzip4 (fun v u f g => mul4 v (of_int u) (of_int f) (of_int (b2z g)))
                   (mget me.GBUF (unit_access st)) (total_units s)
                   (tidx fe BL.REGF) (stored_in_gbuf s));
     v_dram :=
       dall (dzip3 (fun v u f => mul3 v (of_int u) (of_int f))
                   (mget me.DRAM (unit_access st)) (total_units s)
                   (tidx fe BL.GBUF)) |}.

(** Assigning the values one after the other, up to the first that
    raised: the outcome, and the statistics attributes left behind.
    [finalized_stats] is set only when none raised. *)
Definition store_values (v : StatValues) (st : Stats) : Exc unit * Stats :=
  match v_ops v with
  | None => (inl OverflowError, st)
  | Some x1 =>
  let st1 := st_set_ops x1 st in
  match v_time v with
  | None => (inl OverflowError, st1)
  | Some x2 =>
  let st2 := st_set_time x2 st1 in
  match v_regf v with
  | None => (inl OverflowError, st2)
  | Some x3 =>
  let st3 := st_set_access me.REGF x3 st2 in
  match v_itcn v with
  | None => (inl OverflowError, st3)
  | Some x4 =>
  let st4 := st_set_access me.ITCN x4 st3 in
  match v_gbuf v with
  | None => (inl OverflowError, st4)
  | Some x5 =>
  let st5 := st_set_access me.GBUF x5 st4 in
  match v_dram v with
  | None => (inl OverflowError, st5)
  | Some x6 =>
  let st6 := st_set_access me.DRAM x6 st5 in
  (inr tt, st_set_finalized true st6)
  end end end end end end.

(** A run of [_calc_stats] on the statistics attributes [st]. *)
Definition calc_run (s : LoopBlockingScheme) (fe : list (dtab Z))
           (st : Stats) : Exc unit * Stats :=
  store_values (stat_values s fe st) st.

(* ================================================================== *)
(** ** Vocabulary of the properties *)

(** A record without the attributes of [Stats]: what no method may
    change once the constructor has returned. *)
Definition core (s : LoopBlockingScheme) : LoopBlockingScheme :=
  set_stats None s.

(** A method body that assigns to no attribute outside [Stats]. *)
Definition frame {A} (m : M A) : Prop :=
  forall s, core (snd (m s)) = core s.

(** What holds of the statistics attributes of a valid record built from
    the descriptor [nld]: they exist, the unit costs are the descriptor's,
    and once finalized the statistics are those a run of [_calc_stats]
    that returns leaves, for the occupation the record holds. *)
Definition stats_inv (nld : NestedLoopDesc) (s : LoopBlockingScheme) : Prop :=
  if valid s
  then exists st fe,
      stats s = Some st /\ fetch s = Some fe
      /\ unit_ops st = nld_unit_ops nld
      /\ unit_time st = nld_unit_time nld
      /\ unit_access st = nld_unit_access nld
      /\ (finalized_stats st = true -> calc_run s fe st = (inr tt, st))
  else stats s = None.

(** The value of a constructor call that returned. *)
Definition constructed (r : Exc LoopBlockingScheme) : LoopBlockingScheme :=
  match r with
  | inr s => s
  | inl _ => blank
  end.

(** [total_units] in terms of the constructor's arguments: the product
    of the total loop counts of the two loops a category depends on. *)
Definition units_of (tifm tofm tbat : list Z) (c : de.t) : Z :=
  match c with
  | de.FIL => Util.prod tifm * Util.prod tofm
  | de.IFM => Util.prod tifm * Util.prod tbat
  | de.OFM => Util.prod tofm * Util.prod tbat
  end.

(** The loop kind a data category does not depend on, and the two it
    does depend on. *)
Definition unrelated (c : de.t) : le.t :=
  match c with
  | de.FIL => le.BAT
  | de.IFM => le.OFM
  | de.OFM => le.IFM
  end.

Definition related (c : de.t) : le.t * le.t :=
  match c with
  | de.FIL => (le.IFM, le.OFM)
  | de.IFM => (le.IFM, le.BAT)
  | de.OFM => (le.OFM, le.BAT)
  end.

(** The tiling factors of a loop kind. *)
Definition tiling (s : LoopBlockingScheme) (l : le.t) : list Z :=
  match l with
  | le.IFM => ti s
  | le.OFM => to s
  | le.BAT => tb s
  end.

(** The fetch count made of a product of tiling factors: the product
    itself, and for the output feature maps twice the product less one. *)
Definition fetch_of_product (c : de.t) (p : Z) : Z :=
  match c with
  | de.OFM => 2 * p - 1
  | _ => p
  end.

(** All factors of a tiling are positive. *)
Definition all_pos (l : list Z) : bool := forallb (fun x => 0 <? x) l.






(* ================================================================== *)
(** ** Sample inputs *)

(** A layer with unit buffer sizes and unit costs all 1. *)
Definition sample_nld : NestedLoopDesc :=
  {| loopcnt_ifm := 2; loopcnt_ofm := 1; loopcnt_bat := 2;
     usize_gbuf := (1, 1, 1); usize_regf := (1, 1, 1);
     nld_unit_ops := of_int 1; nld_unit_time := of_int 1;
     nld_unit_access :=
       MTab (of_int 1, of_int 1, of_int 1) (of_int 1, of_int 1, of_int 1)
            (of_int 1, of_int 1, of_int 1) (of_int 1, of_int 1, of_int 1) |}.

(** Orders: at GBUF the batch loop is innermost, then the input loop;
    at REGF the input loop is innermost.  The DRAM and ITCN entries are
    not read. *)
Definition sample_orders : mtab (ltab Z) :=
  MTab (0, 0, 0) (1, 2, 0) (0, 0, 0) (0, 1, 2).

Definition roomy : Resource := {| size_gbuf := 1000; size_regf := 1000 |}.

(** A register file too small for anything. *)
Definition cramped : Resource := {| size_gbuf := 1000; size_regf := 0 |}.

Definition bypass_all : Option_ := {| sw_gbuf_bypass := (true, true, true) |}.

(** Tiling factors of the three loops at the three levels. *)
Definition sample_ti : list Z := [2; 1; 2].
Definition sample_to : list Z := [1; 2; 2].
Definition sample_tb : list Z := [2; 1; 1].

(** A record that fits. *)
Definition sample_valid : LoopBlockingScheme :=
  constructed (init sample_nld sample_ti sample_to sample_tb
                    sample_orders roomy bypass_all).

(** The same tiling with the small register file. *)
Definition sample_invalid : LoopBlockingScheme :=
  constructed (init sample_nld sample_ti sample_to sample_tb
                    sample_orders cramped bypass_all).

(** The object [__init__] holds when it first assigns the flags. *)
Definition sample_head : LoopBlockingScheme :=
  snd (init_head sample_nld sample_ti sample_to sample_tb
                 sample_orders bypass_all blank).

(** A call that reads the statistics. *)
Definition reads_stats (k : call) : bool :=
  match k with
  | Call_get_access | Call_get_top_level_fetch
  | Call_get_cost _ | Call_get_scheme_dict => true
  | _ => false
  end.










(** Orders that put the three loops of GBUF on one position; the
    constructor accepts them. *)
Definition tied_orders : mtab (ltab Z) :=
  MTab (0, 0, 0) (0, 0, 0) (0, 0, 0) (0, 1, 2).

Definition sample_tied : LoopBlockingScheme :=
  constructed (init sample_nld sample_ti sample_to sample_tb
                    tied_orders roomy bypass_all).

(** The cost model with every weight 1. *)
Definition unit_cost : Cost :=
  {| mac_op := of_int 1;
     mem_hier := MTab (of_int 1) (of_int 1) (of_int 1) (of_int 1);
     unit_static := of_int 1 |}.

(** A tiling whose total count of the input loop no float can hold; the
    counts the buffers hold do not involve the outermost factor, so the
    record fits. *)
Definition huge_ti : list Z := [10 ^ 400; 1; 1].
Definition huge_to : list Z := [1; 1; 1].
Definition huge_tb : list Z := [2; 1; 1].

Definition sample_huge : LoopBlockingScheme :=
  constructed (init sample_nld huge_ti huge_to huge_tb
                    sample_orders roomy bypass_all).

(* ================================================================== *)
(** ** Running method bodies *)

Unset Implicit Arguments.


Lemma bind_modify {B} (f : LoopBlockingScheme -> LoopBlockingScheme)
      (k : unit -> M B) (s : LoopBlockingScheme) :
  bind (modify f) k s = k tt (f s).
Proof. reflexivity. Qed.

Lemma bind_gets {A B} (f : LoopBlockingScheme -> A) (k : A -> M B) (s : LoopBlockingScheme) :
  bind (gets f) k s = k (f s) s.
Proof. reflexivity. Qed.

Lemma bind_ret {A B} (a : A) (k : A -> M B) (s : LoopBlockingScheme) :
  bind (ret a) k s = k a s.
Proof. reflexivity. Qed.

Lemma bind_assert {B} (b : bool) (k : unit -> M B) (s : LoopBlockingScheme) :
  bind (py_assert b) k s = if b then k tt s else (inl AssertionError, s).
Proof. destruct b; reflexivity. Qed.

Lemma bind_run {A B} (m : M A) (k : A -> M B) (s s' : LoopBlockingScheme) (a : A) :
  m s = (inr a, s') -> bind m k s = k a s'.
Proof. intros H. unfold bind. rewrite H. reflexivity. Qed.

Lemma bind_attr {A B} (f : LoopBlockingScheme -> option A) (k : A -> M B)
      (s : LoopBlockingScheme) (a : A) :
  f s = Some a -> bind (attr f) k s = k a s.
Proof. intros H. unfold bind, attr. rewrite H. reflexivity. Qed.

Lemma run_set_unit_cnt (s : LoopBlockingScheme) :
  _set_unit_cnt s
  = (inr tt, set_unit_cnt [unit_cnt_level s 0; unit_cnt_level s 1] s).
Proof. reflexivity. Qed.

Lemma run_set_fetch (s : LoopBlockingScheme) :
  _set_fetch s = (inr tt, set_fetch (Some (fetch_table s)) s).
Proof. reflexivity. Qed.

(** One round of the loop that settles [stored_in_gbuf]. *)
Lemma run_resolve_one (options : Option_) (s : LoopBlockingScheme)
      (fe : list (dtab Z)) (c : de.t) :
  fetch s = Some fe ->
  (dget c (stored_in_gbuf s) = false -> dget c (sw_gbuf_bypass options) = true) ->
  resolve_stored options c s
  = (inr tt,
     set_stored_in_gbuf
       (dset c (dget c (stored_in_gbuf s)
                || (dget c (tidx fe BL.GBUF) <? dget c (tidx fe BL.REGF)))
             (stored_in_gbuf s)) s).
Proof.
  intros Hfe Hby.
  unfold resolve_stored. rewrite bind_gets.
  destruct (dget c (stored_in_gbuf s)) eqn:E.
  - destruct s as [xi xo xb xord pi po pb us uc [[g0 g1] g2] v f st].
    destruct c; cbn in E; subst; reflexivity.
  - rewrite (Hby eq_refl). rewrite bind_assert.
    rewrite (bind_attr _ _ _ _ Hfe). cbn [orb].
    destruct (dget c (tidx fe BL.GBUF) <? dget c (tidx fe BL.REGF)).
    + reflexivity.
    + destruct s as [xi xo xb xord pi po pb us uc [[g0 g1] g2] v f st].
      destruct c; cbn in E; subst; reflexivity.
Qed.

(** The loop that settles [stored_in_gbuf], when it starts from flags
    that are the negated bypass options and [self.fetch] is set. *)
Lemma run_resolve_stored (options : Option_) (s : LoopBlockingScheme)
      (fe : list (dtab Z)) :
  fetch s = Some fe ->
  stored_in_gbuf s = dmap negb (sw_gbuf_bypass options) ->
  for_each de.all (resolve_stored options) s
  = (inr tt, set_stored_in_gbuf (resolved_flags fe (stored_in_gbuf s)) s).
Proof.
  intros Hfe Hst.
  assert (Hby : forall (c : de.t) (g : dtab bool),
             dget c (dset c true g) = true).
  { intros c [[g0 g1] g2]; destruct c; reflexivity. }
  unfold for_each, de.all.
  erewrite bind_run; cycle 1.
  { apply run_resolve_one with (fe := fe); [exact Hfe|].
    rewrite Hst. destruct (sw_gbuf_bypass options) as [[p q] r].
    cbn. destruct p; [reflexivity|discriminate]. }
  erewrite bind_run; cycle 1.
  { apply run_resolve_one with (fe := fe); [exact Hfe|].
    cbn [stored_in_gbuf set_stored_in_gbuf].
    rewrite Hst. destruct (sw_gbuf_bypass options) as [[p q] r].
    cbn. destruct q; [reflexivity|discriminate]. }
  erewrite bind_run; cycle 1.
  { apply run_resolve_one with (fe := fe); [exact Hfe|].
    cbn [stored_in_gbuf set_stored_in_gbuf].
    rewrite Hst. destruct (sw_gbuf_bypass options) as [[p q] r].
    cbn. destruct r; [reflexivity|discriminate]. }
  unfold ret, resolved_flags.
  destruct s as [xi xo xb xord pi po pb us uc [[g0 g1] g2] v f st].
  destruct (tidx fe BL.GBUF) as [[a0 a1] a2].
  destruct (tidx fe BL.REGF) as [[c0 c1] c2].
  reflexivity.
Qed.

(** What the first part of the constructor computes. *)
Lemma init_head_eq (nld : NestedLoopDesc) (tifm tofm tbat : list Z)
      (orders_ : mtab (ltab Z)) (options : Option_) :
  args_ok nld tifm tofm tbat = true ->
  init_head nld tifm tofm tbat orders_ options blank
  = (inr tt, at_first_check nld tifm tofm tbat orders_ options).
Proof.
  unfold init_head, args_ok.
  repeat first [rewrite bind_modify | rewrite bind_gets | rewrite bind_assert].
  cbn [ti to tb tip top tbp set_prods set_orders set_tiling BL.NUM Nat.add].
  destruct (Nat.eqb (length tifm) 3); [|discriminate].
  destruct (Nat.eqb (length tofm) 3); [|discriminate].
  destruct (Nat.eqb (length tbat) 3); [|discriminate].
  destruct (Util.prod tifm >=? loopcnt_ifm nld); [|discriminate].
  destruct (Util.prod tofm >=? loopcnt_ofm nld); [|discriminate].
  destruct (Util.prod tbat >=? loopcnt_bat nld); [|discriminate].
  intros _.
  erewrite bind_run by apply run_set_unit_cnt.
  reflexivity.
Qed.

Lemma init_head_raises (nld : NestedLoopDesc) (tifm tofm tbat : list Z)
      (orders_ : mtab (ltab Z)) (options : Option_) :
  args_ok nld tifm tofm tbat = false ->
  fst (init_head nld tifm tofm tbat orders_ options blank) = inl AssertionError.
Proof.
  unfold init_head, args_ok.
  repeat first [rewrite bind_modify | rewrite bind_gets | rewrite bind_assert].
  cbn [ti to tb tip top tbp set_prods set_orders set_tiling BL.NUM Nat.add].
  destruct (Nat.eqb (length tifm) 3); [|reflexivity].
  destruct (Nat.eqb (length tofm) 3); [|reflexivity].
  destruct (Nat.eqb (length tbat) 3); [|reflexivity].
  destruct (Util.prod tifm >=? loopcnt_ifm nld); [|reflexivity].
  destruct (Util.prod tofm >=? loopcnt_ofm nld); [|reflexivity].
  destruct (Util.prod tbat >=? loopcnt_bat nld); [|reflexivity].
  discriminate.
Qed.

(** What the rest of the constructor computes from there. *)
Lemma init_tail_eq (nld : NestedLoopDesc) (resource : Resource)
      (options : Option_) (s0 : LoopBlockingScheme) :
  stored_in_gbuf s0 = dmap negb (sw_gbuf_bypass options) ->
  init_tail nld resource options s0
  = (inr tt,
     if size_exceeds resource s0 then set_valid false s0
     else
       let s1 := at_second_check s0 in
       if size_exceeds resource s1 then set_valid false s1
       else set_stats (Some (fresh_stats nld)) s1).
Proof.
  intros Hst. unfold init_tail.
  rewrite bind_gets.
  destruct (size_exceeds resource s0); [reflexivity|].
  rewrite bind_modify.
  erewrite bind_run by apply run_set_fetch.
  erewrite bind_run
    by (apply (run_resolve_stored options) with (fe := fetch_table s0);
        [reflexivity | exact Hst]).
  rewrite bind_gets.
  change (set_stored_in_gbuf _ _) with (at_second_check s0).
  cbv zeta.
  destruct (size_exceeds resource (at_second_check s0)); reflexivity.
Qed.

(** What the constructor computes. *)
Lemma init_eq (nld : NestedLoopDesc) (tifm tofm tbat : list Z)
      (orders_ : mtab (ltab Z)) (resource : Resource) (options : Option_) :
  init nld tifm tofm tbat orders_ resource options
  = if args_ok nld tifm tofm tbat
    then
      let s0 := at_first_check nld tifm tofm tbat orders_ options in
      if size_exceeds resource s0 then inr (set_valid false s0)
      else
        let s1 := at_second_check s0 in
        if size_exceeds resource s1 then inr (set_valid false s1)
        else inr (set_stats (Some (fresh_stats nld)) s1)
    else inl AssertionError.
Proof.
  unfold init, init_body.
  destruct (args_ok nld tifm tofm tbat) eqn:Hok.
  - erewrite bind_run by (apply init_head_eq; exact Hok).
    rewrite init_tail_eq by reflexivity.
    cbv zeta.
    destruct (size_exceeds resource _); [reflexivity|].
    destruct (size_exceeds resource _); reflexivity.
  - pose proof (init_head_raises nld tifm tofm tbat orders_ options Hok) as H.
    unfold bind.
    destruct (init_head nld tifm tofm tbat orders_ options blank) as [[e|u] s'];
      cbn in H; [inversion H; reflexivity | discriminate].
Qed.

(* ------------------------------------------------------------------ *)
(** *** Methods leave everything but the statistics alone *)

Create HintDb frame.

Lemma frame_ret {A} (a : A) : frame (ret a).
Proof. intros s. reflexivity. Qed.

Lemma frame_raise {A} (e : exn) : frame (raise (A:=A) e).
Proof. intros s. reflexivity. Qed.

Lemma frame_gets {A} (f : LoopBlockingScheme -> A) : frame (gets f).
Proof. intros s. reflexivity. Qed.

Lemma frame_attr {A} (f : LoopBlockingScheme -> option A) : frame (attr f).
Proof. intros s. unfold attr. destruct (f s); reflexivity. Qed.

Lemma frame_assert (b : bool) : frame (py_assert b).
Proof. intros s. destruct b; reflexivity. Qed.

Lemma frame_bind {A B} (m : M A) (k : A -> M B) :
  frame m -> (forall a, frame (k a)) -> frame (bind m k).
Proof.
  intros Hm Hk s. unfold bind.
  specialize (Hm s). destruct (m s) as [[e|a] s1]; cbn [snd] in *.
  - exact Hm.
  - rewrite Hk. exact Hm.
Qed.

Lemma frame_if {A} (b : bool) (m1 m2 : M A) :
  frame m1 -> frame m2 -> frame (if b then m1 else m2).
Proof. destruct b; auto. Qed.

Lemma frame_assign (f : LoopBlockingScheme -> Stats -> Stats) : frame (assign f).
Proof.
  unfold assign. apply frame_bind; [apply frame_attr|].
  intros st s. reflexivity.
Qed.

Lemma frame_num {A} (r : option A) : frame (num r).
Proof. intros s. destruct r; reflexivity. Qed.

#[local] Hint Resolve frame_ret frame_raise frame_gets frame_attr frame_assert
  frame_if frame_assign frame_num : frame.
#[local] Hint Extern 2 (frame (bind _ _)) =>
  apply frame_bind; [| intros ?] : frame.

Lemma frame_assign_num {A} (e : LoopBlockingScheme -> Stats -> option A)
      (set : A -> Stats -> Stats) :
  frame (assign_num e set).
Proof. unfold assign_num. auto 10 with frame. Qed.

#[local] Hint Resolve frame_assign_num : frame.

Lemma frame_calc_stats : frame _calc_stats.
Proof. unfold _calc_stats. auto 20 with frame. Qed.

Lemma frame_ensure_stats : frame ensure_stats.
Proof.
  unfold ensure_stats. pose proof frame_calc_stats. auto 10 with frame.
Qed.

#[local] Hint Resolve frame_calc_stats frame_ensure_stats : frame.

Lemma frame_set_partition_occupation (p : F) : frame (set_partition_occupation p).
Proof. unfold set_partition_occupation. auto 10 with frame. Qed.

Lemma frame_get_access : frame get_access.
Proof. unfold get_access. auto 10 with frame. Qed.

Lemma frame_get_top_level_fetch : frame get_top_level_fetch.
Proof. unfold get_top_level_fetch. auto 10 with frame. Qed.

Lemma frame_get_cost (cost : Cost) : frame (get_cost cost).
Proof. unfold get_cost. auto 10 with frame. Qed.

Lemma frame_get_scheme_dict : frame get_scheme_dict.
Proof. unfold get_scheme_dict. auto 12 with frame. Qed.

(** No call touches an attribute outside [Stats]. *)
Lemma after_core (c : call) (s : LoopBlockingScheme) :
  core (after c s) = core s.
Proof.
  destruct c; cbn [after]; try reflexivity.
  - apply frame_set_partition_occupation.
  - apply frame_get_access.
  - apply frame_get_top_level_fetch.
  - apply frame_get_cost.
  - apply frame_get_scheme_dict.
Qed.

(** Reading the attributes outside [Stats] off the core. *)
Lemma core_fields (s s' : LoopBlockingScheme) :
  core s' = core s ->
  ti s' = ti s /\ to s' = to s /\ tb s' = tb s /\ orders s' = orders s
  /\ tip s' = tip s /\ top s' = top s /\ tbp s' = tbp s
  /\ unit_size s' = unit_size s /\ unit_cnt s' = unit_cnt s
  /\ stored_in_gbuf s' = stored_in_gbuf s /\ valid s' = valid s
  /\ fetch s' = fetch s.
Proof.
  intros H.
  repeat split;
    [ change (ti (core s') = ti (core s))
    | change (to (core s') = to (core s))
    | change (tb (core s') = tb (core s))
    | change (orders (core s') = orders (core s))
    | change (tip (core s') = tip (core s))
    | change (top (core s') = top (core s))
    | change (tbp (core s') = tbp (core s))
    | change (unit_size (core s') = unit_size (core s))
    | change (unit_cnt (core s') = unit_cnt (core s))
    | change (stored_in_gbuf (core s') = stored_in_gbuf (core s))
    | change (valid (core s') = valid (core s))
    | change (fetch (core s') = fetch (core s)) ];
    rewrite H; reflexivity.
Qed.

Lemma core_data_size (s s' : LoopBlockingScheme) (bl : nat) :
  core s' = core s -> data_size s' bl = data_size s bl.
Proof.
  intros H. change (data_size (core s') bl = data_size (core s) bl).
  rewrite H. reflexivity.
Qed.

Lemma core_set_stats (o : option Stats) (s : LoopBlockingScheme) :
  core (set_stats o s) = core s.
Proof. reflexivity. Qed.

Lemma set_stats_same (s : LoopBlockingScheme) : set_stats (stats s) s = s.
Proof. destruct s; reflexivity. Qed.

(** A reachable record has the core of the constructed one. *)
Lemma reachable_core (nld : NestedLoopDesc) (tifm tofm tbat : list Z)
      (orders_ : mtab (ltab Z)) (resource : Resource) (options : Option_)
      (s : LoopBlockingScheme) :
  reachable nld tifm tofm tbat orders_ resource options s ->
  exists s0,
    init nld tifm tofm tbat orders_ resource options = inr s0
    /\ core s = core s0.
Proof.
  induction 1 as [s Hinit | s c _ [s0 [Hinit Hcore]]].
  - exists s. split; [exact Hinit | reflexivity].
  - exists s0. split; [exact Hinit|].
    rewrite after_core. exact Hcore.
Qed.

(* ------------------------------------------------------------------ *)
(** *** The constructed record *)

Lemma init_inv (nld : NestedLoopDesc) (tifm tofm tbat : list Z)
      (orders_ : mtab (ltab Z)) (resource : Resource) (options : Option_)
      (s : LoopBlockingScheme) :
  init nld tifm tofm tbat orders_ resource options = inr s ->
  args_ok nld tifm tofm tbat = true
  /\ (let s0 := at_first_check nld tifm tofm tbat orders_ options in
      (size_exceeds resource s0 = true /\ s = set_valid false s0)
      \/ (size_exceeds resource s0 = false
          /\ size_exceeds resource (at_second_check s0) = true
          /\ s = set_valid false (at_second_check s0))
      \/ (size_exceeds resource s0 = false
          /\ size_exceeds resource (at_second_check s0) = false
          /\ s = set_stats (Some (fresh_stats nld)) (at_second_check s0))).
Proof.
  rewrite init_eq. cbv zeta.
  destruct (args_ok nld tifm tofm tbat); [|discriminate].
  destruct (size_exceeds resource (at_first_check _ _ _ _ _ _)) eqn:E0.
  { intros H; inversion H. auto. }
  destruct (size_exceeds resource (at_second_check _)) eqn:E1;
    intros H; inversion H; auto 6.
Qed.

Lemma size_exceeds_false (resource : Resource) (s : LoopBlockingScheme) :
  size_exceeds resource s = false ->
  data_size s BL.REGF <= size_regf resource
  /\ data_size s BL.GBUF <= size_gbuf resource.
Proof.
  unfold size_exceeds. intros H.
  apply orb_false_iff in H. destruct H as [H1 H2].
  rewrite Z.gtb_ltb in H1, H2.
  apply Z.ltb_ge in H1. apply Z.ltb_ge in H2. auto.
Qed.

Lemma size_exceeds_true (resource : Resource) (s : LoopBlockingScheme) :
  size_exceeds resource s = true ->
  size_regf resource < data_size s BL.REGF
  \/ size_gbuf resource < data_size s BL.GBUF.
Proof.
  unfold size_exceeds. intros H.
  apply orb_true_iff in H. rewrite !Z.gtb_ltb in H.
  destruct H as [H|H]; apply Z.ltb_lt in H; auto.
Qed.

(* ------------------------------------------------------------------ *)
(** *** The statistics of a reachable record *)

Lemma run_assign (f : LoopBlockingScheme -> Stats -> Stats)
      (s : LoopBlockingScheme) (st : Stats) :
  stats s = Some st ->
  assign f s = (inr tt, set_stats (Some (f s st)) s).
Proof.
  intros H. unfold assign. rewrite (bind_attr _ _ _ _ H). reflexivity.
Qed.

Lemma bind_num {A B} (r : option A) (k : A -> M B) (s : LoopBlockingScheme) :
  bind (num r) k s
  = match r with
    | Some a => k a s
    | None => (inl OverflowError, s)
    end.
Proof. destruct r; reflexivity. Qed.

Lemma bind_assign_num {A B} (e : LoopBlockingScheme -> Stats -> option A)
      (set : A -> Stats -> Stats) (k : unit -> M B)
      (s : LoopBlockingScheme) (st : Stats) :
  stats s = Some st ->
  bind (assign_num e set) k s
  = match e s st with
    | Some v => k tt (set_stats (Some (set v st)) s)
    | None => (inl OverflowError, s)
    end.
Proof.
  intros H. unfold assign_num.
  unfold bind at 1. rewrite (bind_attr _ _ _ _ H), bind_gets, bind_num.
  destruct (e s st) as [v|]; [|reflexivity].
  rewrite (run_assign _ _ _ H). reflexivity.
Qed.

(** Names the value the next step of [_calc_stats] computes. *)
Ltac name_scrutinee v :=
  match goal with
  | |- match ?o with Some _ => _ | None => _ end = _ => change o with v
  end.

(** What a run of [_calc_stats] does to an object that has the
    statistics attributes and the fetch counts. *)
Lemma run_calc_stats (s : LoopBlockingScheme) (st : Stats) (fe : list (dtab Z)) :
  stats s = Some st -> fetch s = Some fe ->
  _calc_stats s
  = (fst (calc_run s fe st), set_stats (Some (snd (calc_run s fe st))) s).
Proof.
  intros Hst Hfe. unfold _calc_stats, calc_run, store_values.
  rewrite bind_gets.
  set (V := stat_values s fe st).
  rewrite (bind_assign_num _ _ _ s st Hst).
  name_scrutinee (v_ops V).
  destruct (v_ops V) as [x1|];
    [|cbn [fst snd]; rewrite <- Hst, set_stats_same; reflexivity].
  erewrite bind_assign_num by reflexivity. cbv beta.
  name_scrutinee (v_time V).
  destruct (v_time V) as [x2|]; [|reflexivity].
  erewrite bind_assign_num by reflexivity. cbv beta.
  name_scrutinee (v_regf V).
  destruct (v_regf V) as [x3|]; [|reflexivity].
  erewrite bind_attr by exact Hfe.
  erewrite bind_assign_num by reflexivity. cbv beta.
  name_scrutinee (v_itcn V).
  destruct (v_itcn V) as [x4|]; [|reflexivity].
  erewrite bind_attr by exact Hfe.
  erewrite bind_assign_num by reflexivity. cbv beta.
  name_scrutinee (v_gbuf V).
  destruct (v_gbuf V) as [x5|]; [|reflexivity].
  erewrite bind_attr by exact Hfe.
  erewrite bind_assign_num by reflexivity. cbv beta.
  name_scrutinee (v_dram V).
  destruct (v_dram V) as [x6|]; [|reflexivity].
  erewrite run_assign by reflexivity.
  reflexivity.
Qed.

(** The attributes [_calc_stats] computes from are not among those it
    assigns. *)
Lemma store_values_inputs (v : StatValues) (st : Stats) :
  unit_ops (snd (store_values v st)) = unit_ops st
  /\ unit_time (snd (store_values v st)) = unit_time st
  /\ unit_access (snd (store_values v st)) = unit_access st
  /\ part_occ (snd (store_values v st)) = part_occ st.
Proof.
  unfold store_values.
  destruct (v_ops v), (v_time v), (v_regf v), (v_itcn v), (v_gbuf v),
    (v_dram v); repeat split.
Qed.

Lemma store_values_idem (v : StatValues) (st : Stats) :
  store_values v (snd (store_values v st)) = store_values v st.
Proof.
  unfold store_values.
  destruct (v_ops v), (v_time v), (v_regf v), (v_itcn v), (v_gbuf v),
    (v_dram v); reflexivity.
Qed.

(** The two ways a run of [_calc_stats] ends: it returns, having assigned
    all six values and set [finalized_stats]; or it raises
    [OverflowError] and leaves [finalized_stats] as it was. *)
Lemma store_values_outcome (v : StatValues) (st : Stats) :
  (fst (store_values v st) = inr tt
   /\ finalized_stats (snd (store_values v st)) = true
   /\ v_ops v = Some (ops (snd (store_values v st)))
   /\ v_time v = Some (time (snd (store_values v st)))
   /\ v_regf v = Some (m_regf (access (snd (store_values v st))))
   /\ v_itcn v = Some (m_itcn (access (snd (store_values v st))))
   /\ v_gbuf v = Some (m_gbuf (access (snd (store_values v st))))
   /\ v_dram v = Some (m_dram (access (snd (store_values v st)))))
  \/ (fst (store_values v st) = inl OverflowError
      /\ finalized_stats (snd (store_values v st)) = finalized_stats st
      /\ (v_ops v = None \/ v_time v = None \/ v_regf v = None
          \/ v_itcn v = None \/ v_gbuf v = None \/ v_dram v = None)).
Proof.
  unfold store_values.
  destruct (v_ops v); [|right; split; [reflexivity|]; split; [reflexivity|]; auto 10].
  destruct (v_time v); [|right; split; [reflexivity|]; split; [reflexivity|]; auto 10].
  destruct (v_regf v); [|right; split; [reflexivity|]; split; [reflexivity|]; auto 10].
  destruct (v_itcn v); [|right; split; [reflexivity|]; split; [reflexivity|]; auto 10].
  destruct (v_gbuf v); [|right; split; [reflexivity|]; split; [reflexivity|]; auto 10].
  destruct (v_dram v); [|right; split; [reflexivity|]; split; [reflexivity|]; auto 10].
  left. repeat (split; [reflexivity|]). reflexivity.
Qed.

(** The values depend on the attributes outside [Stats] and on the unit
    costs and the occupation only. *)
Lemma stat_values_ext (s s' : LoopBlockingScheme) (fe : list (dtab Z))
      (st st' : Stats) :
  core s' = core s ->
  unit_ops st' = unit_ops st -> unit_time st' = unit_time st ->
  unit_access st' = unit_access st -> part_occ st' = part_occ st ->
  stat_values s' fe st' = stat_values s fe st.
Proof.
  intros Hc E1 E2 E3 E4. apply core_fields in Hc.
  destruct Hc as (_ & _ & _ & _ & C5 & C6 & C7 & _ & _ & C10 & _).
  unfold stat_values, total_units.
  rewrite C5, C6, C7, C10, E1, E2, E3, E4. reflexivity.
Qed.

Lemma calc_run_idem (s : LoopBlockingScheme) (fe : list (dtab Z)) (st : Stats)
      (o : option Stats) :
  calc_run (set_stats o s) fe (snd (calc_run s fe st)) = calc_run s fe st.
Proof.
  unfold calc_run.
  destruct (store_values_inputs (stat_values s fe st) st) as (E1 & E2 & E3 & E4).
  rewrite (stat_values_ext s (set_stats o s) fe st _
             (core_set_stats o s) E1 E2 E3 E4).
  apply store_values_idem.
Qed.

Lemma calc_run_outcome (s : LoopBlockingScheme) (fe : list (dtab Z))
      (st : Stats) :
  fst (calc_run s fe st) = inr tt
  \/ (fst (calc_run s fe st) = inl OverflowError
      /\ finalized_stats (snd (calc_run s fe st)) = finalized_stats st).
Proof.
  unfold calc_run.
  destruct (store_values_outcome (stat_values s fe st) st)
    as [(H & _) | (H1 & H2 & _)]; auto.
Qed.

Lemma calc_run_finalized (s : LoopBlockingScheme) (fe : list (dtab Z))
      (st : Stats) :
  fst (calc_run s fe st) = inr tt ->
  finalized_stats (snd (calc_run s fe st)) = true.
Proof.
  unfold calc_run. intros H.
  destruct (store_values_outcome (stat_values s fe st) st)
    as [(_ & H' & _) | (H1 & _)]; [exact H' | congruence].
Qed.

Lemma pair_eta_run (R : Exc unit * Stats) :
  fst R = inr tt -> R = (inr tt, snd R).
Proof. destruct R as [r st]. cbn. intros ->. reflexivity. Qed.

(** Running a body whose outcome is known. *)
Lemma bind_outcome {A B} (m : M A) (k : A -> M B)
      (s s' : LoopBlockingScheme) (r : Exc A) :
  m s = (r, s') ->
  bind m k s
  = match r with
    | inl e => (inl e, s')
    | inr a => k a s'
    end.
Proof. intros H. unfold bind. rewrite H. destruct r; reflexivity. Qed.

(** [ensure_stats] on a valid record whose statistics obey [stats_inv]. *)
Lemma run_ensure_stats (nld : NestedLoopDesc) (s : LoopBlockingScheme) :
  stats_inv nld s -> valid s = true ->
  exists st fe,
    stats s = Some st /\ fetch s = Some fe
    /\ unit_ops st = nld_unit_ops nld
    /\ unit_time st = nld_unit_time nld
    /\ unit_access st = nld_unit_access nld
    /\ ensure_stats s
       = (fst (calc_run s fe st),
          set_stats (Some (snd (calc_run s fe st))) s).
Proof.
  unfold stats_inv. intros Hinv Hv. rewrite Hv in Hinv.
  destruct Hinv as (st & fe & Hst & Hfe & Hu1 & Hu2 & Hu3 & Hfin).
  exists st, fe. repeat (split; [assumption|]).
  unfold ensure_stats. rewrite (bind_attr _ _ _ _ Hst).
  destruct (finalized_stats st) eqn:E.
  - rewrite (Hfin eq_refl). cbn [fst snd].
    rewrite <- Hst, set_stats_same. reflexivity.
  - apply run_calc_stats; assumption.
Qed.

Lemma stats_inv_calc (nld : NestedLoopDesc) (s : LoopBlockingScheme)
      (st : Stats) (fe : list (dtab Z)) :
  valid s = true -> stats s = Some st -> fetch s = Some fe ->
  unit_ops st = nld_unit_ops nld ->
  unit_time st = nld_unit_time nld ->
  unit_access st = nld_unit_access nld ->
  (finalized_stats st = true -> calc_run s fe st = (inr tt, st)) ->
  stats_inv nld (set_stats (Some (snd (calc_run s fe st))) s).
Proof.
  intros Hv Hst Hfe Hu1 Hu2 Hu3 Hfin. unfold stats_inv.
  cbn [valid set_stats]. rewrite Hv.
  exists (snd (calc_run s fe st)), fe.
  destruct (store_values_inputs (stat_values s fe st) st) as (E1 & E2 & E3 & _).
  fold (calc_run s fe st) in E1, E2, E3.
  split; [reflexivity|]. split; [exact Hfe|].
  split; [rewrite E1; exact Hu1|].
  split; [rewrite E2; exact Hu2|].
  split; [rewrite E3; exact Hu3|].
  intros Hf. rewrite calc_run_idem. apply pair_eta_run.
  destruct (calc_run_outcome s fe st) as [H | [_ H]]; [exact H|].
  rewrite Hf in H. symmetry in H. rewrite (Hfin H). reflexivity.
Qed.

Lemma run_get_access (nld : NestedLoopDesc) (s : LoopBlockingScheme) :
  stats_inv nld s -> valid s = true ->
  exists st fe,
    stats s = Some st /\ fetch s = Some fe
    /\ unit_ops st = nld_unit_ops nld
    /\ unit_time st = nld_unit_time nld
    /\ unit_access st = nld_unit_access nld
    /\ get_access s
       = (match fst (calc_run s fe st) with
          | inl e => inl e
          | inr _ => inr (Some (access (snd (calc_run s fe st))))
          end,
          set_stats (Some (snd (calc_run s fe st))) s).
Proof.
  intros Hinv Hv.
  destruct (run_ensure_stats nld s Hinv Hv) as (st & fe & Hst & Hfe & H1 & H2 & H3 & Hrun).
  exists st, fe. repeat (split; [assumption|]).
  unfold get_access. rewrite bind_gets. unfold is_valid. rewrite Hv. cbn [negb].
  rewrite (bind_outcome _ _ _ _ _ Hrun).
  destruct (fst (calc_run s fe st)); [reflexivity|].
  erewrite bind_attr by reflexivity. reflexivity.
Qed.

Lemma run_get_top_level_fetch (nld : NestedLoopDesc) (s : LoopBlockingScheme) :
  stats_inv nld s -> valid s = true ->
  exists st fe,
    stats s = Some st /\ fetch s = Some fe
    /\ get_top_level_fetch s
       = (match fst (calc_run s fe st) with
          | inl e => inl e
          | inr _ => inr (Some (tidx fe BL.GBUF))
          end,
          set_stats (Some (snd (calc_run s fe st))) s).
Proof.
  intros Hinv Hv.
  destruct (run_ensure_stats nld s Hinv Hv) as (st & fe & Hst & Hfe & H1 & H2 & H3 & Hrun).
  exists st, fe. repeat (split; [assumption|]).
  unfold get_top_level_fetch. rewrite bind_gets. unfold is_valid. rewrite Hv.
  cbn [negb]. rewrite (bind_outcome _ _ _ _ _ Hrun).
  destruct (fst (calc_run s fe st)); [reflexivity|].
  erewrite bind_attr by exact Hfe. reflexivity.
Qed.

Lemma run_get_scheme_dict (nld : NestedLoopDesc) (s : LoopBlockingScheme) :
  stats_inv nld s -> valid s = true ->
  exists st fe d,
    stats s = Some st /\ fetch s = Some fe
    /\ unit_ops st = nld_unit_ops nld
    /\ unit_time st = nld_unit_time nld
    /\ get_scheme_dict s
       = (match fst (calc_run s fe st) with
          | inl e => inl e
          | inr _ => inr (Some d)
          end,
          set_stats (Some (snd (calc_run s fe st))) s)
    /\ sd_ops d = ops (snd (calc_run s fe st))
    /\ sd_time d = time (snd (calc_run s fe st))
    /\ sd_access d = access (snd (calc_run s fe st))
    /\ sd_part_occ d = part_occ st.
Proof.
  intros Hinv Hv.
  destruct (run_ensure_stats nld s Hinv Hv) as (st & fe & Hst & Hfe & H1 & H2 & H3 & Hrun).
  exists st, fe.
  exists {| sd_ops := ops (snd (calc_run s fe st));
            sd_time := time (snd (calc_run s fe st));
            sd_access := access (snd (calc_run s fe st));
            sd_fetch := fe;
            sd_size :=
              map (fun bl => (data_size_of s bl de.FIL, data_size_of s bl de.IFM,
                              data_size_of s bl de.OFM)) (seq 0 BL.NUM);
            sd_unit_size := unit_size s;
            sd_unit_cnt := unit_cnt s;
            sd_part_occ := part_occ (snd (calc_run s fe st));
            sd_ti := ti s; sd_to := to s; sd_tb := tb s;
            sd_orders := orders s |}.
  repeat (split; [assumption|]).
  split.
  - unfold get_scheme_dict. rewrite bind_gets. unfold is_valid. rewrite Hv.
    cbn [negb]. rewrite (bind_outcome _ _ _ _ _ Hrun).
    destruct (fst (calc_run s fe st)); [reflexivity|].
    rewrite bind_gets.
    erewrite bind_attr by reflexivity.
    erewrite bind_attr by exact Hfe.
    rewrite bind_gets. reflexivity.
  - cbn [sd_ops sd_time sd_access sd_part_occ].
    repeat (split; [reflexivity|]).
    apply (store_values_inputs (stat_values s fe st) st).
Qed.

Lemma run_get_cost (nld : NestedLoopDesc) (cost : Cost) (s : LoopBlockingScheme) :
  stats_inv nld s -> valid s = true ->
  exists st fe,
    stats s = Some st /\ fetch s = Some fe
    /\ get_cost cost s
       = (match fst (calc_run s fe st) with
          | inl e => inl e
          | inr _ =>
              match cost_of (ops (snd (calc_run s fe st)))
                            (time (snd (calc_run s fe st)))
                            (access (snd (calc_run s fe st))) cost with
              | Some c => inr c
              | None => inl OverflowError
              end
          end,
          set_stats (Some (snd (calc_run s fe st))) s).
Proof.
  intros Hinv Hv.
  destruct (run_ensure_stats nld s Hinv Hv)
    as (st & fe & Hst & Hfe & H1 & H2 & H3 & Hrun).
  exists st, fe. repeat (split; [assumption|]).
  unfold get_cost. rewrite bind_gets. unfold is_valid. rewrite Hv.
  cbn [negb]. rewrite (bind_outcome _ _ _ _ _ Hrun).
  destruct (fst (calc_run s fe st)); [reflexivity|].
  erewrite bind_attr by reflexivity.
  cbn [stats set_stats]. unfold num.
  destruct (cost_of _ _ _ cost); reflexivity.
Qed.

(** What a call that reads the statistics leaves behind on a valid record:
    the record with the statistics attributes as the run of
    [_calc_stats] left them. *)
Lemma after_reads_stats (nld : NestedLoopDesc) (k : call)
      (s : LoopBlockingScheme) :
  stats_inv nld s -> valid s = true -> reads_stats k = true ->
  exists st fe,
    stats s = Some st /\ fetch s = Some fe
    /\ unit_ops st = nld_unit_ops nld
    /\ unit_time st = nld_unit_time nld
    /\ unit_access st = nld_unit_access nld
    /\ (finalized_stats st = true -> calc_run s fe st = (inr tt, st))
    /\ after k s = set_stats (Some (snd (calc_run s fe st))) s.
Proof.
  intros Hinv Hv Hk.
  pose proof Hinv as Hinv'. unfold stats_inv in Hinv'. rewrite Hv in Hinv'.
  destruct Hinv' as (st & fe & Hst & Hfe & Hu1 & Hu2 & Hu3 & Hfin).
  exists st, fe. repeat (split; [assumption|]).
  destruct k; try discriminate Hk; cbn [after].
  - destruct (run_get_access nld s Hinv Hv)
      as (st' & fe' & Hst' & Hfe' & _ & _ & _ & Hrun).
    rewrite Hst in Hst'. rewrite Hfe in Hfe'.
    inversion Hst'. inversion Hfe'. subst st' fe'.
    rewrite Hrun. reflexivity.
  - destruct (run_get_top_level_fetch nld s Hinv Hv)
      as (st' & fe' & Hst' & Hfe' & Hrun).
    rewrite Hst in Hst'. rewrite Hfe in Hfe'.
    inversion Hst'. inversion Hfe'. subst st' fe'.
    rewrite Hrun. reflexivity.
  - destruct (run_get_cost nld cost s Hinv Hv)
      as (st' & fe' & Hst' & Hfe' & Hrun).
    rewrite Hst in Hst'. rewrite Hfe in Hfe'.
    inversion Hst'. inversion Hfe'. subst st' fe'.
    rewrite Hrun. reflexivity.
  - destruct (run_get_scheme_dict nld s Hinv Hv)
      as (st' & fe' & d & Hst' & Hfe' & _ & _ & Hrun & _).
    rewrite Hst in Hst'. rewrite Hfe in Hfe'.
    inversion Hst'. inversion Hfe'. subst st' fe'.
    rewrite Hrun. reflexivity.
Qed.

Lemma invalid_after_read (k : call) (s : LoopBlockingScheme) :
  valid s = false -> reads_stats k = true -> after k s = s.
Proof.
  intros Hv Hk. destruct k; try discriminate Hk; cbn [after].
  - unfold get_access. rewrite bind_gets. unfold is_valid. rewrite Hv.
    reflexivity.
  - unfold get_top_level_fetch. rewrite bind_gets. unfold is_valid.
    rewrite Hv. reflexivity.
  - unfold get_cost. rewrite bind_gets. unfold is_valid. rewrite Hv.
    reflexivity.
  - unfold get_scheme_dict. rewrite bind_gets. unfold is_valid. rewrite Hv.
    reflexivity.
Qed.

(** Every call keeps [stats_inv]. *)
Lemma stats_inv_after (nld : NestedLoopDesc) (c : call) (s : LoopBlockingScheme) :
  stats_inv nld s -> stats_inv nld (after c s).
Proof.
  intros Hinv.
  destruct (reads_stats c) eqn:Hc.
  - destruct (valid s) eqn:Hv.
    + destruct (after_reads_stats nld c s Hinv Hv Hc)
        as (st & fe & Hst & Hfe & Hu1 & Hu2 & Hu3 & Hfin & ->).
      apply stats_inv_calc; assumption.
    + rewrite (invalid_after_read c s Hv Hc). exact Hinv.
  - destruct c; try discriminate Hc; cbn [after]; try exact Hinv.
    destruct (valid s) eqn:Hv.
    + unfold set_partition_occupation. rewrite bind_gets.
      unfold is_valid. rewrite Hv. cbn [negb].
      pose proof Hinv as Hinv'. unfold stats_inv in Hinv'. rewrite Hv in Hinv'.
      destruct Hinv' as (st & fe & Hst & Hfe & Hu1 & Hu2 & Hu3 & Hfin).
      rewrite (bind_attr _ _ _ _ Hst), bind_assert.
      destruct (finalized_stats st) eqn:E; cbn [negb snd]; [exact Hinv|].
      rewrite (run_assign _ _ _ Hst). cbn [snd].
      unfold stats_inv. cbn [valid set_stats]. rewrite Hv.
      exists (st_set_part_occ p st), fe.
      repeat split; try assumption.
      cbn [finalized_stats st_set_part_occ]. rewrite E. discriminate.
    + unfold set_partition_occupation. rewrite bind_gets.
      unfold is_valid. rewrite Hv. exact Hinv.
Qed.

Lemma stats_inv_init (nld : NestedLoopDesc) (tifm tofm tbat : list Z)
      (orders_ : mtab (ltab Z)) (resource : Resource) (options : Option_)
      (s : LoopBlockingScheme) :
  init nld tifm tofm tbat orders_ resource options = inr s ->
  stats_inv nld s.
Proof.
  intros H. apply init_inv in H.
  destruct H as [_ [[_ ->] | [(_ & _ & ->) | (_ & _ & ->)]]];
    unfold stats_inv; cbn [valid set_valid set_stats at_second_check
                           set_stored_in_gbuf set_fetch stats fetch];
    try reflexivity.
  eexists _, _. repeat split. discriminate.
Qed.

Lemma reachable_stats_inv (nld : NestedLoopDesc) (tifm tofm tbat : list Z)
      (orders_ : mtab (ltab Z)) (resource : Resource) (options : Option_)
      (s : LoopBlockingScheme) :
  reachable nld tifm tofm tbat orders_ resource options s ->
  stats_inv nld s.
Proof.
  induction 1 as [s Hinit | s c _ IH].
  - eapply stats_inv_init; eassumption.
  - apply stats_inv_after; assumption.
Qed.

(* ------------------------------------------------------------------ *)
(** *** Facts about tables *)

Lemma dget_dmap {A B} (f : A -> B) (c : de.t) (x : dtab A) :
  dget c (dmap f x) = f (dget c x).
Proof. destruct x as [[a b] d]; destruct c; reflexivity. Qed.

Lemma dget_dzip3 {A B C D} (f : A -> B -> C -> D) (c : de.t)
      (x : dtab A) (y : dtab B) (z : dtab C) :
  dget c (dzip3 f x y z) = f (dget c x) (dget c y) (dget c z).
Proof.
  destruct x as [[a1 a2] a3], y as [[b1 b2] b3], z as [[c1 c2] c3];
    destruct c; reflexivity.
Qed.

Lemma dget_dset_same {A} (c : de.t) (v : A) (x : dtab A) :
  dget c (dset c v x) = v.
Proof. destruct x as [[a b] d]; destruct c; reflexivity. Qed.

Lemma dget_dset_other {A} (c c' : de.t) (v : A) (x : dtab A) :
  c <> c' -> dget c' (dset c v x) = dget c' x.
Proof.
  destruct x as [[a b] d]; destruct c, c'; intros H;
    try reflexivity; contradiction H; reflexivity.
Qed.

Lemma dget_resolved_flags (fe : list (dtab Z)) (g : dtab bool) (c : de.t) :
  dget c (resolved_flags fe g)
  = dget c g || (dget c (tidx fe BL.GBUF) <? dget c (tidx fe BL.REGF)).
Proof. unfold resolved_flags. rewrite dget_dzip3. reflexivity. Qed.

(** The attributes of a constructed record that come straight from the
    arguments. *)
Lemma init_fields (nld : NestedLoopDesc) (tifm tofm tbat : list Z)
      (orders_ : mtab (ltab Z)) (resource : Resource) (options : Option_)
      (s : LoopBlockingScheme) :
  init nld tifm tofm tbat orders_ resource options = inr s ->
  ti s = tifm /\ to s = tofm /\ tb s = tbat
  /\ orders s = [mget me.GBUF orders_; mget me.REGF orders_]
  /\ tip s = Util.prod tifm /\ top s = Util.prod tofm /\ tbp s = Util.prod tbat
  /\ unit_size s = [usize_gbuf nld; usize_regf nld]
  /\ unit_cnt s = [unit_cnt_level s 0; unit_cnt_level s 1].
Proof.
  intros H. apply init_inv in H.
  destruct H as [_ [[_ ->] | [(_ & _ & ->) | (_ & _ & ->)]]];
    repeat split.
Qed.

Lemma init_lengths (nld : NestedLoopDesc) (tifm tofm tbat : list Z)
      (orders_ : mtab (ltab Z)) (resource : Resource) (options : Option_)
      (s : LoopBlockingScheme) :
  init nld tifm tofm tbat orders_ resource options = inr s ->
  length tifm = 3%nat /\ length tofm = 3%nat /\ length tbat = 3%nat.
Proof.
  intros H. apply init_inv in H. destruct H as [Hok _].
  unfold args_ok in Hok.
  repeat (apply andb_true_iff in Hok; destruct Hok as [Hok ?]).
  repeat split; apply Nat.eqb_eq; assumption.
Qed.

Lemma reachable_fields (nld : NestedLoopDesc) (tifm tofm tbat : list Z)
      (orders_ : mtab (ltab Z)) (resource : Resource) (options : Option_)
      (s : LoopBlockingScheme) :
  reachable nld tifm tofm tbat orders_ resource options s ->
  ti s = tifm /\ to s = tofm /\ tb s = tbat
  /\ orders s = [mget me.GBUF orders_; mget me.REGF orders_]
  /\ tip s = Util.prod tifm /\ top s = Util.prod tofm /\ tbp s = Util.prod tbat
  /\ unit_size s = [usize_gbuf nld; usize_regf nld]
  /\ unit_cnt s = [unit_cnt_level s 0; unit_cnt_level s 1]
  /\ length tifm = 3%nat /\ length tofm = 3%nat /\ length tbat = 3%nat.
Proof.
  intros H. apply reachable_core in H. destruct H as (s0 & Hinit & Hcore).
  pose proof (init_lengths _ _ _ _ _ _ _ _ Hinit) as (L1 & L2 & L3).
  apply init_fields in Hinit.
  apply core_fields in Hcore.
  destruct Hcore as (E1 & E2 & E3 & E4 & E5 & E6 & E7 & E8 & E9 & _).
  unfold unit_cnt_level in *.
  rewrite E1, E2, E3, E4, E5, E6, E7, E8, E9.
  tauto.
Qed.

(* ================================================================== *)
(** ** Capacity *)

Lemma reachable_valid_fits (nld : NestedLoopDesc) (tifm tofm tbat : list Z)
      (orders_ : mtab (ltab Z)) (resource : Resource) (options : Option_)
      (s : LoopBlockingScheme) :
  reachable nld tifm tofm tbat orders_ resource options s ->
  valid s = true ->
  size_exceeds resource s = false.
Proof.
  intros H Hv. apply reachable_core in H. destruct H as (s0 & Hinit & Hcore).
  assert (Hsz : size_exceeds resource s = size_exceeds resource s0).
  { unfold size_exceeds. rewrite !(core_data_size _ _ _ Hcore). reflexivity. }
  apply core_fields in Hcore.
  destruct Hcore as (_ & _ & _ & _ & _ & _ & _ & _ & _ & _ & Hvalid & _).
  rewrite Hsz. rewrite Hvalid in Hv. clear Hsz Hvalid.
  apply init_inv in Hinit.
  cbv zeta in Hinit.
  destruct Hinit as [_ [[_ Hs0] | [(_ & _ & Hs0) | (_ & E & Hs0)]]];
    revert Hs0.
  - generalize (at_first_check nld tifm tofm tbat orders_ options).
    intros a ->. discriminate Hv.
  - generalize (at_second_check
                  (at_first_check nld tifm tofm tbat orders_ options)).
    intros a ->. discriminate Hv.
  - revert E.
    generalize (at_second_check
                  (at_first_check nld tifm tofm tbat orders_ options)).
    intros a E ->. exact E.
Qed.

(** C2.  On every record a caller can hold for which [is_valid()] is
    true, the total data size at the REGF level is at most the REGF
    capacity of the resource, and the total data size at the GBUF level,
    with the final [stored_in_gbuf] flags, is at most the GBUF capacity. *)
Theorem valid_fits_capacity (nld : NestedLoopDesc) (tifm tofm tbat : list Z)
      (orders_ : mtab (ltab Z)) (resource : Resource) (options : Option_)
      (s : LoopBlockingScheme) :
  reachable nld tifm tofm tbat orders_ resource options s ->
  is_valid s = true ->
  data_size s BL.REGF <= size_regf resource
  /\ data_size s BL.GBUF <= size_gbuf resource.
Proof.
  intros H Hv. apply size_exceeds_false.
  eapply reachable_valid_fits; eassumption.
Qed.

(* ================================================================== *)
(** ** Queries on an invalid record *)

Lemma invalid_get_cost (cost : Cost) (s : LoopBlockingScheme) :
  is_valid s = false -> get_cost cost s = (inr finf, s).
Proof.
  intros H. unfold get_cost. rewrite bind_gets, H. reflexivity.
Qed.

Lemma invalid_get_access (s : LoopBlockingScheme) :
  is_valid s = false -> get_access s = (inr None, s).
Proof.
  intros H. unfold get_access. rewrite bind_gets, H. reflexivity.
Qed.

(** C5.  On every record a caller can hold for which [is_valid()] is
    false, and in particular on one whose REGF-level data size exceeds
    the REGF capacity, [get_cost] returns infinity and [get_access]
    returns [None]; neither touches the record, so no statistics are
    computed. *)
Theorem invalid_queries_degrade (nld : NestedLoopDesc) (tifm tofm tbat : list Z)
      (orders_ : mtab (ltab Z)) (resource : Resource) (options : Option_)
      (s : LoopBlockingScheme) (cost : Cost) :
  reachable nld tifm tofm tbat orders_ resource options s ->
  is_valid s = false \/ size_regf resource < data_size s BL.REGF ->
  is_valid s = false
  /\ get_cost cost s = (inr finf, s)
  /\ get_access s = (inr None, s).
Proof.
  intros H Hcase.
  assert (Hv : is_valid s = false).
  { destruct Hcase as [Hv | Hbig]; [exact Hv|].
    destruct (is_valid s) eqn:Hv; [|reflexivity].
    apply (reachable_valid_fits _ _ _ _ _ _ _ _ H) in Hv.
    apply size_exceeds_false in Hv. lia. }
  split; [exact Hv|].
  split; [apply invalid_get_cost | apply invalid_get_access]; exact Hv.
Qed.

(* ================================================================== *)
(** ** Residency flags *)

(** C6.  The flags [stored_in_gbuf] as first assigned by [__init__] are
    the negated bypass options; a flag that was first true is true on
    every record a caller can hold; a flag that was first false is true
    later only if the fetch count at GBUF is strictly smaller than the one
    at REGF; and no call changes any flag. *)
Theorem stored_in_gbuf_monotone (nld : NestedLoopDesc) (tifm tofm tbat : list Z)
      (orders_ : mtab (ltab Z)) (resource : Resource) (options : Option_)
      (s1 s : LoopBlockingScheme) (c : de.t) :
  init_head nld tifm tofm tbat orders_ options blank = (inr tt, s1) ->
  reachable nld tifm tofm tbat orders_ resource options s ->
  dget c (stored_in_gbuf s1) = negb (dget c (sw_gbuf_bypass options))
  /\ (dget c (stored_in_gbuf s1) = true -> dget c (stored_in_gbuf s) = true)
  /\ (dget c (stored_in_gbuf s1) = false ->
      dget c (stored_in_gbuf s) = true ->
      exists fe, fetch s = Some fe
                 /\ dget c (tidx fe BL.GBUF) < dget c (tidx fe BL.REGF))
  /\ (forall k : call, stored_in_gbuf (after k s) = stored_in_gbuf s).
Proof.
  intros Hhead H.
  pose proof (reachable_core _ _ _ _ _ _ _ _ H) as (s0 & Hinit & Hcore).
  apply core_fields in Hcore.
  destruct Hcore as (_ & _ & _ & _ & _ & _ & _ & _ & _ & Hgs & _ & Hfe).
  rewrite Hgs, Hfe. clear Hfe.
  apply init_inv in Hinit. destruct Hinit as [Hok Hinit].
  rewrite (init_head_eq _ _ _ _ orders_ options Hok) in Hhead.
  inversion Hhead as [Hs1]. clear Hhead.
  set (a := at_first_check nld tifm tofm tbat orders_ options) in *.
  split; [apply dget_dmap|].
  assert (Hres : s0 = set_valid false a
                 \/ (stored_in_gbuf s0
                     = resolved_flags (fetch_table a) (stored_in_gbuf a)
                     /\ fetch s0 = Some (fetch_table a))).
  { cbv zeta in Hinit.
    destruct Hinit as [[_ ->] | [(_ & _ & ->) | (_ & _ & ->)]];
      [left; reflexivity | right; split; reflexivity
       | right; split; reflexivity]. }
  split; [|split].
  - intros Ht. destruct Hres as [-> | [-> _]]; [exact Ht|].
    rewrite dget_resolved_flags, Ht. reflexivity.
  - intros Hf Ht. destruct Hres as [-> | [Hg Hfe]].
    + cbn [stored_in_gbuf set_valid] in Ht. congruence.
    + exists (fetch_table a). split; [exact Hfe|].
      rewrite Hg, dget_resolved_flags, Hf in Ht. cbn [orb] in Ht.
      apply Z.ltb_lt. exact Ht.
  - intros k. pose proof (after_core k s) as Hk.
    apply core_fields in Hk.
    destruct Hk as (_ & _ & _ & _ & _ & _ & _ & _ & _ & Hk & _).
    rewrite Hk. exact Hgs.
Qed.

(* ================================================================== *)
(** ** Partition occupation *)

(** C9, as the code has it.  On a record a caller can hold,
    [set_partition_occupation] does nothing when the record is invalid
    and fails its assertion once the statistics are finalized; before
    that it may be called any number of times, each call returning
    normally and overwriting [part_occ], so that the last value stands. *)
Theorem set_partition_occupation_contract
      (nld : NestedLoopDesc) (tifm tofm tbat : list Z)
      (orders_ : mtab (ltab Z)) (resource : Resource) (options : Option_)
      (s : LoopBlockingScheme) (p q : F) :
  reachable nld tifm tofm tbat orders_ resource options s ->
  (is_valid s = false -> set_partition_occupation p s = (inr tt, s))
  /\ (is_valid s = true ->
      exists st,
        stats s = Some st
        /\ (finalized_stats st = true ->
            set_partition_occupation p s = (inl AssertionError, s))
        /\ (finalized_stats st = false ->
            set_partition_occupation p s
            = (inr tt, set_stats (Some (st_set_part_occ p st)) s)
            /\ set_partition_occupation q
                 (set_stats (Some (st_set_part_occ p st)) s)
               = (inr tt, set_stats (Some (st_set_part_occ q st)) s))).
Proof.
  intros H. apply reachable_stats_inv in H. unfold stats_inv in H.
  unfold is_valid. split; intros Hv; rewrite Hv in H.
  - unfold set_partition_occupation. rewrite bind_gets.
    unfold is_valid. rewrite Hv. reflexivity.
  - destruct H as (st & fe & Hst & _).
    exists st. split; [exact Hst|].
    assert (Hrun : forall (x : F) (s' : LoopBlockingScheme) (st' : Stats),
               valid s' = true -> stats s' = Some st' ->
               set_partition_occupation x s'
               = if finalized_stats st' then (inl AssertionError, s')
                 else (inr tt, set_stats (Some (st_set_part_occ x st')) s')).
    { intros x s' st' Hv' Hst'. unfold set_partition_occupation.
      rewrite bind_gets. unfold is_valid. rewrite Hv'. cbn [negb].
      rewrite (bind_attr _ _ _ _ Hst'), bind_assert.
      destruct (finalized_stats st'); cbn [negb]; [reflexivity|].
      rewrite (run_assign _ _ _ Hst'). reflexivity. }
    split; intros Hfin.
    + rewrite (Hrun p s st Hv Hst), Hfin. reflexivity.
    + split.
      * rewrite (Hrun p s st Hv Hst), Hfin. reflexivity.
      * rewrite (Hrun q (set_stats (Some (st_set_part_occ p st)) s)
                      (st_set_part_occ p st) Hv eq_refl).
        cbn [finalized_stats st_set_part_occ]. rewrite Hfin. reflexivity.
Qed.

(* ================================================================== *)
(** ** Residency and the data sizes *)

Lemma data_size_regf_flags (g : dtab bool) (s : LoopBlockingScheme) :
  data_size (set_stored_in_gbuf g s) BL.REGF = data_size s BL.REGF
  /\ forall c, data_size_of (set_stored_in_gbuf g s) BL.REGF c
               = data_size_of s BL.REGF c.
Proof. split; [|intros c]; reflexivity. Qed.

Lemma flip_grows (s : LoopBlockingScheme) (c : de.t) :
  dget c (stored_in_gbuf s) = false ->
  0 <= dget c (tidx (unit_cnt s) BL.GBUF) * dget c (tidx (unit_size s) BL.GBUF) ->
  data_size s BL.GBUF
  <= data_size (set_stored_in_gbuf (dset c true (stored_in_gbuf s)) s) BL.GBUF.
Proof.
  destruct s as [xi xo xb xord pi po pb us uc [[g0 g1] g2] v f st].
  unfold data_size, data_size_of, zsum, de.all.
  cbn [map fold_left Nat.eqb BL.GBUF unit_cnt unit_size stored_in_gbuf
       set_stored_in_gbuf].
  destruct (tidx uc 0) as [[n0 n1] n2].
  destruct (tidx us 0) as [[u0 u1] u2].
  destruct c; cbn [dget dset]; intros -> Hnn; lia.
Qed.

Lemma data_size_set_valid (v : bool) (a : LoopBlockingScheme) (bl : nat) :
  data_size (set_valid v a) bl = data_size a bl.
Proof. reflexivity. Qed.

Lemma data_size_set_stats (o : option Stats) (a : LoopBlockingScheme) (bl : nat) :
  data_size (set_stats o a) bl = data_size a bl.
Proof. reflexivity. Qed.

Lemma data_size_second_regf (a : LoopBlockingScheme) :
  data_size (at_second_check a) BL.REGF = data_size a BL.REGF.
Proof. reflexivity. Qed.

Lemma prod_cons (x : Z) (l : list Z) : Util.prod (x :: l) = x * Util.prod l.
Proof.
  unfold Util.prod. cbn [fold_left].
  assert (H : forall (l : list Z) (a : Z),
             fold_left Z.mul l a = a * fold_left Z.mul l 1).
  { clear. induction l as [|y l IH]; intros a; cbn [fold_left].
    - lia.
    - rewrite (IH (a * y)), (IH (1 * y)). lia. }
  rewrite (H l (1 * x)). lia.
Qed.

Lemma prod_nil : Util.prod [] = 1.
Proof. reflexivity. Qed.

Lemma prod_pos (l : list Z) : Forall (fun x => 0 < x) l -> 0 < Util.prod l.
Proof.
  induction 1 as [|x l Hx _ IH].
  - rewrite prod_nil. lia.
  - rewrite prod_cons. lia.
Qed.

Lemma all_pos_Forall (l : list Z) :
  all_pos l = true -> Forall (fun x => 0 < x) l.
Proof.
  unfold all_pos. intros H. apply Forall_forall. intros x Hx.
  rewrite forallb_forall in H. apply Z.ltb_lt. apply H, Hx.
Qed.

Lemma Forall_skipn_pos (n : nat) (l : list Z) :
  Forall (fun x => 0 < x) l -> Forall (fun x => 0 < x) (skipn n l).
Proof.
  revert l. induction n as [|n IH]; intros l H; [exact H|].
  destruct H as [|x l Hx Hl]; [constructor|]. cbn [skipn]. apply IH, Hl.
Qed.

(** C10.  The REGF-level data sizes do not read [stored_in_gbuf]:
    whatever the flags, they are the same, and they are the same at both
    size checks.  Making a bypassed category resident never decreases the
    GBUF-level total (for positive tiling factors and unit sizes that are
    not negative).  So a record that passed the first size check and is
    invalid fits the REGF capacity and exceeds the GBUF capacity. *)
Theorem regf_size_ignores_residency
      (nld : NestedLoopDesc) (tifm tofm tbat : list Z)
      (orders_ : mtab (ltab Z)) (resource : Resource) (options : Option_)
      (s1 s : LoopBlockingScheme) :
  init_head nld tifm tofm tbat orders_ options blank = (inr tt, s1) ->
  init nld tifm tofm tbat orders_ resource options = inr s ->
  (forall g : dtab bool,
      data_size (set_stored_in_gbuf g s) BL.REGF = data_size s BL.REGF
      /\ forall c, data_size_of (set_stored_in_gbuf g s) BL.REGF c
                   = data_size_of s BL.REGF c)
  /\ data_size s BL.REGF = data_size s1 BL.REGF
  /\ (all_pos tifm = true -> all_pos tofm = true -> all_pos tbat = true ->
      (forall c, 0 <= dget c (usize_gbuf nld)) ->
      forall c,
        dget c (stored_in_gbuf s) = false ->
        data_size s BL.GBUF
        <= data_size (set_stored_in_gbuf (dset c true (stored_in_gbuf s)) s)
                     BL.GBUF)
  /\ (size_exceeds resource s1 = false ->
      is_valid s = false ->
      data_size s BL.REGF <= size_regf resource
      /\ size_gbuf resource < data_size s BL.GBUF).
Proof.
  intros Hhead Hinit.
  pose proof (init_fields _ _ _ _ _ _ _ _ Hinit)
    as (E1 & E2 & E3 & _ & _ & _ & _ & E8 & E9).
  apply init_inv in Hinit. destruct Hinit as [Hok Hinit].
  rewrite (init_head_eq _ _ _ _ orders_ options Hok) in Hhead.
  inversion Hhead as [Hs1]. clear Hhead. cbv zeta in Hinit.
  assert (Hregf : data_size s BL.REGF
                  = data_size (at_first_check nld tifm tofm tbat orders_ options)
                              BL.REGF).
  { destruct Hinit as [[_ ->] | [(_ & _ & ->) | (_ & _ & ->)]];
      rewrite ?data_size_set_valid, ?data_size_set_stats,
        ?data_size_second_regf; reflexivity. }
  split; [intros g; apply data_size_regf_flags|].
  split; [exact Hregf|].
  split.
  - intros Pi Po Pb Pu c Hc. apply flip_grows; [exact Hc|].
    apply all_pos_Forall in Pi, Po, Pb.
    rewrite E8, E9. unfold unit_cnt_level. rewrite E1, E2, E3.
    cbn [tidx nth BL.GBUF].
    pose proof (prod_pos _ (Forall_skipn_pos 1 _ Pi)) as Qi.
    pose proof (prod_pos _ (Forall_skipn_pos 1 _ Po)) as Qo.
    pose proof (prod_pos _ (Forall_skipn_pos 1 _ Pb)) as Qb.
    pose proof (Pu c) as Pc.
    destruct (usize_gbuf nld) as [[u0 u1] u2].
    destruct c; cbn [dget] in *; nia.
  - intros Hfirst Hv.
    destruct Hinit as [[E _] | [(_ & E & ->) | (_ & _ & ->)]].
    + rewrite E in Hfirst. discriminate.
    + rewrite Hregf. apply size_exceeds_false in Hfirst.
      split; [tauto|].
      apply size_exceeds_true in E.
      rewrite data_size_set_valid.
      destruct E as [E|E]; [|exact E].
      rewrite data_size_second_regf in E.
      lia.
    + discriminate Hv.
Qed.

(* ================================================================== *)
(** ** Statistics *)

Lemma total_units_reachable (nld : NestedLoopDesc) (tifm tofm tbat : list Z)
      (orders_ : mtab (ltab Z)) (resource : Resource) (options : Option_)
      (s : LoopBlockingScheme) (c : de.t) :
  reachable nld tifm tofm tbat orders_ resource options s ->
  dget c (total_units s) = units_of tifm tofm tbat c.
Proof.
  intros H. apply reachable_fields in H.
  destruct H as (_ & _ & _ & _ & E5 & E6 & E7 & _).
  unfold total_units. rewrite E5, E6, E7. destruct c; reflexivity.
Qed.

Lemma dall_dget {A} (x : dtab (option A)) (r : dtab A) (c : de.t) :
  dall x = Some r -> dget c x = Some (dget c r).
Proof.
  destruct x as [[[a|] [b|]] [d|]]; cbn; try discriminate.
  intros H. inversion H. destruct c; reflexivity.
Qed.

(** What the six attributes hold after a run of [_calc_stats] that
    returned. *)
Lemma calc_run_values (s : LoopBlockingScheme) (fe : list (dtab Z))
      (st : Stats) :
  fst (calc_run s fe st) = inr tt ->
  v_ops (stat_values s fe st) = Some (ops (snd (calc_run s fe st)))
  /\ v_time (stat_values s fe st) = Some (time (snd (calc_run s fe st)))
  /\ v_regf (stat_values s fe st)
     = Some (m_regf (access (snd (calc_run s fe st))))
  /\ v_itcn (stat_values s fe st)
     = Some (m_itcn (access (snd (calc_run s fe st))))
  /\ v_gbuf (stat_values s fe st)
     = Some (m_gbuf (access (snd (calc_run s fe st))))
  /\ v_dram (stat_values s fe st)
     = Some (m_dram (access (snd (calc_run s fe st)))).
Proof.
  unfold calc_run. intros H.
  destruct (store_values_outcome (stat_values s fe st) st)
    as [(_ & _ & H') | (H1 & _)]; [exact H' | congruence].
Qed.

(** A call of [get_access] that returned a table: the run of
    [_calc_stats] behind it returned, and the table is the one it left. *)
Lemma get_access_returned (nld : NestedLoopDesc) (s : LoopBlockingScheme)
      (acc : mtab (dtab F)) :
  stats_inv nld s -> valid s = true ->
  fst (get_access s) = inr (Some acc) ->
  exists st fe,
    stats s = Some st /\ fetch s = Some fe
    /\ unit_ops st = nld_unit_ops nld
    /\ unit_time st = nld_unit_time nld
    /\ unit_access st = nld_unit_access nld
    /\ fst (calc_run s fe st) = inr tt
    /\ acc = access (snd (calc_run s fe st)).
Proof.
  intros Hinv Hv Hret.
  destruct (run_get_access nld s Hinv Hv)
    as (st & fe & Hst & Hfe & U1 & U2 & U3 & Hrun).
  exists st, fe. repeat (split; [assumption|]).
  rewrite Hrun in Hret. cbn [fst] in Hret.
  destruct (fst (calc_run s fe st)) as [e|[]]; [discriminate|].
  inversion Hret. split; reflexivity.
Qed.

(** C7.  On a valid record a caller can hold on which [get_access]
    returns a table (it raises [OverflowError] when an integer in a
    product of [_calc_stats] is too large for a float),
    [get_top_level_fetch] returns as well, and the DRAM entry of the
    table is, for each category, the unit DRAM access count times the
    total units of the category (the product of the total loop counts of
    its two loops) times the entry of the category in what
    [get_top_level_fetch] returns, which is the fetch count at the GBUF
    level.  A product equal to [Some x] did not raise and has the value
    [x]. *)
Theorem dram_access_round_trip
      (nld : NestedLoopDesc) (tifm tofm tbat : list Z)
      (orders_ : mtab (ltab Z)) (resource : Resource) (options : Option_)
      (s : LoopBlockingScheme) (c : de.t) (acc : mtab (dtab F)) :
  reachable nld tifm tofm tbat orders_ resource options s ->
  is_valid s = true ->
  fst (get_access s) = inr (Some acc) ->
  exists (top_fetch : dtab Z) (fe : list (dtab Z)),
    fst (get_top_level_fetch s) = inr (Some top_fetch)
    /\ fetch s = Some fe /\ top_fetch = tidx fe BL.GBUF
    /\ mul3 (dget c (mget me.DRAM (nld_unit_access nld)))
            (of_int (units_of tifm tofm tbat c))
            (of_int (dget c top_fetch))
       = Some (dget c (mget me.DRAM acc)).
Proof.
  intros H Hv Hret. unfold is_valid in Hv.
  pose proof (reachable_stats_inv _ _ _ _ _ _ _ _ H) as Hinv.
  destruct (get_access_returned nld s acc Hinv Hv Hret)
    as (st & fe & Hst & Hfe & _ & _ & Hu & Hok & ->).
  destruct (run_get_top_level_fetch nld s Hinv Hv)
    as (st' & fe' & Hst' & Hfe' & Htop).
  rewrite Hst in Hst'. rewrite Hfe in Hfe'.
  inversion Hst'. inversion Hfe'. subst st' fe'.
  exists (tidx fe BL.GBUF), fe.
  rewrite Htop, Hok.
  repeat (split; [reflexivity || assumption|]).
  destruct (calc_run_values s fe st Hok) as (_ & _ & _ & _ & _ & Hd).
  apply (dall_dget _ _ c) in Hd. cbn [v_dram stat_values] in Hd.
  rewrite dget_dzip3, Hu in Hd.
  rewrite (total_units_reachable _ _ _ _ _ _ _ _ c H) in Hd.
  exact Hd.
Qed.

(** C8.  On a valid record a caller can hold on which [get_scheme_dict]
    returns a summary (it raises [OverflowError] when an integer in a
    product of [_calc_stats] is too large for a float), the summary has,
    for [N] the product of the three total loop counts, operations
    [unit_ops * N * part_occ] for the occupation the record holds, and
    time [unit_time * N], in which the occupation does not occur.  A
    product equal to [Some x] did not raise and has the value [x]. *)
Theorem ops_and_time
      (nld : NestedLoopDesc) (tifm tofm tbat : list Z)
      (orders_ : mtab (ltab Z)) (resource : Resource) (options : Option_)
      (s : LoopBlockingScheme) (d : SchemeDict) :
  reachable nld tifm tofm tbat orders_ resource options s ->
  is_valid s = true ->
  fst (get_scheme_dict s) = inr (Some d) ->
  let N := Util.prod tifm * Util.prod tofm * Util.prod tbat in
  exists (st : Stats),
    stats s = Some st
    /\ sd_part_occ d = part_occ st
    /\ mul3 (nld_unit_ops nld) (of_int N) (part_occ st) = Some (sd_ops d)
    /\ fmul (nld_unit_time nld) (of_int N) = Some (sd_time d).
Proof.
  intros H Hv Hret N. unfold is_valid in Hv.
  pose proof (reachable_stats_inv _ _ _ _ _ _ _ _ H) as Hinv.
  destruct (run_get_scheme_dict nld s Hinv Hv)
    as (st & fe & d' & Hst & Hfe & Hu1 & Hu2 & Hrun & Hops & Htime & _ & Hocc).
  rewrite Hrun in Hret. cbn [fst] in Hret.
  destruct (fst (calc_run s fe st)) as [e|[]] eqn:Hok; [discriminate|].
  inversion Hret. subst d'. clear Hret.
  apply reachable_fields in H.
  destruct H as (_ & _ & _ & _ & E5 & E6 & E7 & _).
  destruct (calc_run_values s fe st Hok) as (Ho & Ht & _).
  cbn [v_ops v_time stat_values] in Ho, Ht.
  rewrite Hu1, E5, E6, E7 in Ho. rewrite Hu2, E5, E6, E7 in Ht.
  exists st. rewrite Hops, Htime.
  repeat (split; [assumption|]). exact Ht.
Qed.

(* ================================================================== *)
(** ** Fetch counts *)

Lemma fetch_level_ext (s s' : LoopBlockingScheme) (sofar : list (dtab Z))
      (bl : nat) :
  ti s = ti s' -> to s = to s' -> tb s = tb s' -> orders s = orders s' ->
  fetch_level s sofar bl = fetch_level s' sofar bl.
Proof.
  intros E1 E2 E3 E4.
  unfold fetch_level, _innermost_nontrivial_loop.
  rewrite E1, E2, E3, E4. reflexivity.
Qed.

Lemma fetch_table_ext (s s' : LoopBlockingScheme) :
  ti s = ti s' -> to s = to s' -> tb s = tb s' -> orders s = orders s' ->
  fetch_table s = fetch_table s'.
Proof.
  intros E1 E2 E3 E4. unfold fetch_table.
  rewrite (fetch_level_ext s s' [] 0 E1 E2 E3 E4).
  rewrite (fetch_level_ext s s' _ 1 E1 E2 E3 E4).
  reflexivity.
Qed.

Lemma fetch_first_check (nld : NestedLoopDesc) (tifm tofm tbat : list Z)
      (orders_ : mtab (ltab Z)) (options : Option_) :
  fetch (at_first_check nld tifm tofm tbat orders_ options) = None.
Proof. reflexivity. Qed.

Lemma fetch_second_check (a : LoopBlockingScheme) :
  fetch (at_second_check a) = Some (fetch_table (at_second_check a)).
Proof. reflexivity. Qed.

(** The fetch table of a record a caller can hold, when there is one,
    is the one [_set_fetch] computes from the record's own tiling. *)
Lemma reachable_fetch (nld : NestedLoopDesc) (tifm tofm tbat : list Z)
      (orders_ : mtab (ltab Z)) (resource : Resource) (options : Option_)
      (s : LoopBlockingScheme) (fe : list (dtab Z)) :
  reachable nld tifm tofm tbat orders_ resource options s ->
  fetch s = Some fe -> fe = fetch_table s.
Proof.
  intros H Hfe. apply reachable_core in H. destruct H as (s0 & Hinit & Hcore).
  apply core_fields in Hcore.
  destruct Hcore as (E1 & E2 & E3 & E4 & _ & _ & _ & _ & _ & _ & _ & E12).
  rewrite E12 in Hfe.
  rewrite (fetch_table_ext s s0 E1 E2 E3 E4).
  clear E1 E2 E3 E4 E12.
  apply init_inv in Hinit. destruct Hinit as [_ Hinit]. cbv zeta in Hinit.
  pose proof (fetch_first_check nld tifm tofm tbat orders_ options) as Hnone.
  revert Hinit Hnone.
  generalize (at_first_check nld tifm tofm tbat orders_ options). intros a.
  intros [[_ ->] | [(_ & _ & ->) | (_ & _ & ->)]] Hnone.
  - change (fetch (set_valid false a)) with (fetch a) in Hfe. congruence.
  - change (fetch (set_valid false (at_second_check a)))
      with (fetch (at_second_check a)) in Hfe.
    rewrite fetch_second_check in Hfe. inversion Hfe. reflexivity.
  - change (fetch (set_stats (Some (fresh_stats nld)) (at_second_check a)))
      with (fetch (at_second_check a)) in Hfe.
    rewrite fetch_second_check in Hfe. inversion Hfe. reflexivity.
Qed.

Lemma lp_neq_same (a : option le.t) (l : le.t) :
  a = Some l -> lp_neq a l = 0%nat.
Proof. intros ->. destruct l; reflexivity. Qed.

Lemma lp_neq_other (a : option le.t) (l : le.t) :
  a <> Some l -> lp_neq a l = 1%nat.
Proof.
  destruct a as [x|]; [|reflexivity].
  destruct x, l; intros H; try reflexivity; contradiction H; reflexivity.
Qed.

(** One entry of the table, for a category that has a non-trivial loop
    of its own at this level. *)
Lemma fetch_level_rule (s : LoopBlockingScheme) (sofar : list (dtab Z))
      (bl : nat) (c : de.t) :
  0 < zidx (tiling s (fst (related c))) bl ->
  0 < zidx (tiling s (snd (related c))) bl ->
  ~ (zidx (tiling s (fst (related c))) bl = 1
     /\ zidx (tiling s (snd (related c))) bl = 1) ->
  dget c (fetch_level s sofar bl)
  = fetch_of_product c
      (Util.prod (firstn (bl + lp_neq (_innermost_nontrivial_loop s bl) (unrelated c))
                    (tiling s (unrelated c)))).
Proof.
  intros P1 P2 Hnt. unfold fetch_level.
  destruct c; cbn [dget related unrelated tiling fst snd fetch_of_product] in *;
    match goal with
    | |- context [?x * ?y =? 1] =>
        destruct (Z.eqb_spec (x * y) 1) as [E|E]; [exfalso; nia | reflexivity]
    end.
Qed.

Lemma all_pos_zidx (l : list Z) (i : nat) :
  all_pos l = true -> (i < length l)%nat -> 0 < zidx l i.
Proof.
  intros H Hi. apply all_pos_Forall in H.
  rewrite Forall_forall in H. apply H. unfold zidx. apply nth_In. exact Hi.
Qed.

(** C1, as the code has it.  On a record a caller can hold that has
    fetch counts, with positive tiling factors, for each blocking level
    and each category whose two own loops do not both have factor 1 at
    that level: when the loop the category does not depend on is the
    innermost non-trivial loop of the level, the fetch count is made of
    the product of that loop's factors at the levels outside this one, the
    factor of this level left out; otherwise of the product up to and
    including this level's factor.  For the output feature maps it is
    twice the product less one, else the product. *)
Theorem fetch_count_rule
      (nld : NestedLoopDesc) (tifm tofm tbat : list Z)
      (orders_ : mtab (ltab Z)) (resource : Resource) (options : Option_)
      (s : LoopBlockingScheme) (fe : list (dtab Z)) (bl : nat) (c : de.t) :
  reachable nld tifm tofm tbat orders_ resource options s ->
  fetch s = Some fe ->
  (bl < BL.NUM)%nat ->
  all_pos tifm = true -> all_pos tofm = true -> all_pos tbat = true ->
  ~ (zidx (tiling s (fst (related c))) bl = 1
     /\ zidx (tiling s (snd (related c))) bl = 1) ->
  (_innermost_nontrivial_loop s bl = Some (unrelated c) ->
   dget c (tidx fe bl)
   = fetch_of_product c (Util.prod (firstn bl (tiling s (unrelated c)))))
  /\ (_innermost_nontrivial_loop s bl <> Some (unrelated c) ->
      dget c (tidx fe bl)
      = fetch_of_product c (Util.prod (firstn (S bl) (tiling s (unrelated c))))).
Proof.
  intros H Hfe Hbl Pi Po Pb Hnt.
  rewrite (reachable_fetch _ _ _ _ _ _ _ _ _ H Hfe).
  apply reachable_fields in H.
  destruct H as (E1 & E2 & E3 & _ & _ & _ & _ & _ & _ & L1 & L2 & L3).
  assert (Hpos : forall l, 0 < zidx (tiling s l) bl).
  { unfold BL.NUM in Hbl.
    intros [| |]; cbn [tiling]; rewrite ?E1, ?E2, ?E3;
      apply all_pos_zidx; try assumption; lia. }
  assert (Hlvl : dget c (tidx (fetch_table s) bl)
                 = fetch_of_product c
                     (Util.prod (firstn (bl + lp_neq (_innermost_nontrivial_loop s bl)
                                                (unrelated c))
                                   (tiling s (unrelated c))))).
  { unfold fetch_table, BL.NUM in *.
    destruct bl as [|[|bl]]; [| |lia]; cbn [tidx nth];
      apply fetch_level_rule; auto. }
  rewrite Hlvl. split; intros Hin.
  - rewrite (lp_neq_same _ _ Hin), Nat.add_0_r. reflexivity.
  - rewrite (lp_neq_other _ _ Hin), Nat.add_1_r. reflexivity.
Qed.

(* ================================================================== *)
(** ** Index generation *)

(* ------------------------------------------------------------------ *)
(** *** Nested loops as lists *)










(* ------------------------------------------------------------------ *)
(** *** Ranges *)




(* ------------------------------------------------------------------ *)
(** *** One blocking level *)





(* ------------------------------------------------------------------ *)
(** *** Mixed-radix numbers *)





(* ------------------------------------------------------------------ *)
(** *** All levels together *)







(* ================================================================== *)
(** ** Further properties of the constructor *)

(** X1.  The constructor raises nothing but [AssertionError], and raises
    it exactly when a tiling does not have three factors or when the
    product of the factors of a loop is less than the loop count of the
    layer.  The orders, the resource and the options are never a reason
    to raise. *)
Theorem init_raises_iff
      (nld : NestedLoopDesc) (tifm tofm tbat : list Z)
      (orders_ : mtab (ltab Z)) (resource : Resource) (options : Option_) :
  (forall e, init nld tifm tofm tbat orders_ resource options = inl e ->
             e = AssertionError)
  /\ (init nld tifm tofm tbat orders_ resource options = inl AssertionError
      <-> length tifm <> 3%nat \/ length tofm <> 3%nat \/ length tbat <> 3%nat
          \/ Util.prod tifm < loopcnt_ifm nld
          \/ Util.prod tofm < loopcnt_ofm nld
          \/ Util.prod tbat < loopcnt_bat nld).
Proof.
  rewrite init_eq. cbv zeta. unfold args_ok.
  destruct (Nat.eqb_spec (length tifm) 3) as [L1|L1];
    destruct (Nat.eqb_spec (length tofm) 3) as [L2|L2];
    destruct (Nat.eqb_spec (length tbat) 3) as [L3|L3];
    destruct (Z.geb_spec (Util.prod tifm) (loopcnt_ifm nld)) as [G1|G1];
    destruct (Z.geb_spec (Util.prod tofm) (loopcnt_ofm nld)) as [G2|G2];
    destruct (Z.geb_spec (Util.prod tbat) (loopcnt_bat nld)) as [G3|G3];
    cbn [andb];
    try (split; [intros e H; inversion H; reflexivity | split; tauto]).
  destruct (size_exceeds resource _);
    [|destruct (size_exceeds resource _)];
    (split; [intros e H; discriminate H|]);
    (split; [intros H; discriminate H | intros H; exfalso; lia]).
Qed.

(** X2.  A record a caller can hold is valid exactly when its data
    sizes, with the flags it ends up with, fit the two capacities.  (C2
    is the direction from left to right.) *)
Theorem valid_iff_fits
      (nld : NestedLoopDesc) (tifm tofm tbat : list Z)
      (orders_ : mtab (ltab Z)) (resource : Resource) (options : Option_)
      (s : LoopBlockingScheme) :
  reachable nld tifm tofm tbat orders_ resource options s ->
  (is_valid s = true
   <-> data_size s BL.REGF <= size_regf resource
       /\ data_size s BL.GBUF <= size_gbuf resource).
Proof.
  intros H. apply reachable_core in H. destruct H as (s0 & Hinit & Hcore).
  unfold is_valid.
  rewrite !(core_data_size _ _ _ Hcore).
  apply core_fields in Hcore.
  destruct Hcore as (_ & _ & _ & _ & _ & _ & _ & _ & _ & _ & Hvalid & _).
  rewrite Hvalid. clear Hvalid s.
  apply init_inv in Hinit. destruct Hinit as [_ Hinit]. cbv zeta in Hinit.
  assert (Hno : forall a : LoopBlockingScheme,
             size_exceeds resource a = true ->
             ~ (data_size a BL.REGF <= size_regf resource
                /\ data_size a BL.GBUF <= size_gbuf resource)).
  { intros a E. apply size_exceeds_true in E. lia. }
  destruct Hinit as [[E Hs0] | [(_ & E & Hs0) | (_ & E & Hs0)]]; revert E Hs0.
  - generalize (at_first_check nld tifm tofm tbat orders_ options).
    intros a E ->. rewrite !data_size_set_valid. cbn [valid set_valid].
    split; [discriminate | intros Hfit; exfalso; exact (Hno a E Hfit)].
  - generalize (at_second_check
                  (at_first_check nld tifm tofm tbat orders_ options)).
    intros a E ->. rewrite !data_size_set_valid. cbn [valid set_valid].
    split; [discriminate | intros Hfit; exfalso; exact (Hno a E Hfit)].
  - pose proof (eq_refl : valid (at_second_check
                  (at_first_check nld tifm tofm tbat orders_ options)) = true)
      as Hv.
    revert Hv.
    generalize (at_second_check
                  (at_first_check nld tifm tofm tbat orders_ options)).
    intros a Hv E ->. rewrite !data_size_set_stats. cbn [valid set_stats].
    rewrite Hv. split; [intros _; apply size_exceeds_false, E | reflexivity].
Qed.

(** X3.  The flags a caller sees, exactly.  If the record has no fetch
    counts (the first size check failed) it is invalid and every flag is
    the negated bypass option; if it has, a category is resident exactly
    when it may not bypass or its fetch count at GBUF is smaller than
    the one at REGF. *)
Theorem stored_in_gbuf_exact
      (nld : NestedLoopDesc) (tifm tofm tbat : list Z)
      (orders_ : mtab (ltab Z)) (resource : Resource) (options : Option_)
      (s : LoopBlockingScheme) (c : de.t) :
  reachable nld tifm tofm tbat orders_ resource options s ->
  (fetch s = None ->
   is_valid s = false
   /\ dget c (stored_in_gbuf s) = negb (dget c (sw_gbuf_bypass options)))
  /\ (forall fe, fetch s = Some fe ->
      dget c (stored_in_gbuf s)
      = negb (dget c (sw_gbuf_bypass options))
        || (dget c (tidx fe BL.GBUF) <? dget c (tidx fe BL.REGF))).
Proof.
  intros H. apply reachable_core in H. destruct H as (s0 & Hinit & Hcore).
  apply core_fields in Hcore.
  destruct Hcore as (_ & _ & _ & _ & _ & _ & _ & _ & _ & Hg & Hv & Hfe).
  unfold is_valid. rewrite Hg, Hv, Hfe. clear Hg Hv Hfe s.
  apply init_inv in Hinit. destruct Hinit as [_ Hinit]. cbv zeta in Hinit.
  pose proof (fetch_first_check nld tifm tofm tbat orders_ options) as Hnone.
  assert (Hflags : stored_in_gbuf (at_first_check nld tifm tofm tbat
                                                  orders_ options)
                   = dmap negb (sw_gbuf_bypass options)) by reflexivity.
  assert (Hsecond : forall a : LoopBlockingScheme,
             fetch (at_second_check a) = Some (fetch_table a)
             /\ stored_in_gbuf (at_second_check a)
                = resolved_flags (fetch_table a) (stored_in_gbuf a)).
  { intros a. split; reflexivity. }
  revert Hinit Hnone Hflags.
  generalize (at_first_check nld tifm tofm tbat orders_ options). intros a.
  intros Hinit Hnone Hflags.
  destruct (Hsecond a) as [Hfe2 Hg2]. revert Hinit Hfe2 Hg2.
  generalize (at_second_check a). intros b Hinit Hfe2 Hg2.
  destruct Hinit as [[_ ->] | [(_ & _ & ->) | (_ & _ & ->)]];
    cbn [fetch stored_in_gbuf valid set_valid set_stats].
  - split.
    + intros _. split; [reflexivity|]. rewrite Hflags. apply dget_dmap.
    + intros fe Hfe. congruence.
  - split.
    + intros Hfe. congruence.
    + intros fe Hfe. rewrite Hfe2 in Hfe. inversion Hfe. subst fe.
      rewrite Hg2, dget_resolved_flags, Hflags, dget_dmap. reflexivity.
  - split.
    + intros Hfe. congruence.
    + intros fe Hfe. rewrite Hfe2 in Hfe. inversion Hfe. subst fe.
      rewrite Hg2, dget_resolved_flags, Hflags, dget_dmap. reflexivity.
Qed.

(* ================================================================== *)
(** ** Further properties of the methods *)

(** X4.  No call on any record, valid or not, reachable or not, assigns
    to an attribute other than those of the statistics: the tiling, the
    orders, the products, the unit sizes and counts, the flags, the
    validity and the fetch counts are as before. *)
Theorem calls_change_only_stats (k : call) (s : LoopBlockingScheme) :
  ti (after k s) = ti s /\ to (after k s) = to s /\ tb (after k s) = tb s
  /\ orders (after k s) = orders s
  /\ tip (after k s) = tip s /\ top (after k s) = top s
  /\ tbp (after k s) = tbp s
  /\ unit_size (after k s) = unit_size s /\ unit_cnt (after k s) = unit_cnt s
  /\ stored_in_gbuf (after k s) = stored_in_gbuf s
  /\ valid (after k s) = valid s
  /\ fetch (after k s) = fetch s.
Proof. apply core_fields. apply after_core. Qed.

Lemma invalid_set_partition_occupation (p : F) (s : LoopBlockingScheme) :
  is_valid s = false -> set_partition_occupation p s = (inr tt, s).
Proof.
  intros Hv. unfold set_partition_occupation. rewrite bind_gets, Hv.
  reflexivity.
Qed.

Lemma invalid_get_top_level_fetch (s : LoopBlockingScheme) :
  is_valid s = false -> get_top_level_fetch s = (inr None, s).
Proof.
  intros Hv. unfold get_top_level_fetch. rewrite bind_gets, Hv. reflexivity.
Qed.

Lemma invalid_get_scheme_dict (s : LoopBlockingScheme) :
  is_valid s = false -> get_scheme_dict s = (inr None, s).
Proof.
  intros Hv. unfold get_scheme_dict. rewrite bind_gets, Hv. reflexivity.
Qed.

Lemma invalid_after (k : call) (s : LoopBlockingScheme) :
  is_valid s = false -> after k s = s.
Proof.
  intros Hv. destruct k; cbn [after]; try reflexivity.
  - rewrite (invalid_set_partition_occupation p s Hv). reflexivity.
  - rewrite (invalid_get_access s Hv). reflexivity.
  - rewrite (invalid_get_top_level_fetch s Hv). reflexivity.
  - rewrite (invalid_get_cost cost s Hv). reflexivity.
  - rewrite (invalid_get_scheme_dict s Hv). reflexivity.
Qed.

(** [set_partition_occupation] on a valid record that has statistics
    attributes. *)
Lemma run_set_partition_occupation (p : F) (s : LoopBlockingScheme)
      (st : Stats) :
  valid s = true -> stats s = Some st ->
  set_partition_occupation p s
  = if finalized_stats st then (inl AssertionError, s)
    else (inr tt, set_stats (Some (st_set_part_occ p st)) s).
Proof.
  intros Hv Hst. unfold set_partition_occupation.
  rewrite bind_gets. unfold is_valid. rewrite Hv. cbn [negb].
  rewrite (bind_attr _ _ _ _ Hst), bind_assert.
  destruct (finalized_stats st); cbn [negb]; [reflexivity|].
  rewrite (run_assign _ _ _ Hst). reflexivity.
Qed.

(** X5.  An invalid record is never modified: whatever is called on it,
    it is the same record afterwards; and the two queries C5 does not
    mention, [get_top_level_fetch] and [get_scheme_dict], return [None]
    on it. *)
Theorem invalid_record_is_inert (s : LoopBlockingScheme) :
  is_valid s = false ->
  (forall k : call, after k s = s)
  /\ get_top_level_fetch s = (inr None, s)
  /\ get_scheme_dict s = (inr None, s).
Proof.
  intros Hv.
  split; [intros k; apply invalid_after, Hv|].
  split; [apply invalid_get_top_level_fetch | apply invalid_get_scheme_dict];
    exact Hv.
Qed.

(** The four queries on a valid record whose statistics obey
    [stats_inv], in terms of one run of [_calc_stats]. *)
Lemma run_queries (nld : NestedLoopDesc) (s : LoopBlockingScheme) :
  stats_inv nld s -> valid s = true ->
  exists st fe d,
    stats s = Some st /\ fetch s = Some fe
    /\ unit_ops st = nld_unit_ops nld
    /\ unit_time st = nld_unit_time nld
    /\ unit_access st = nld_unit_access nld
    /\ (finalized_stats st = true -> calc_run s fe st = (inr tt, st))
    /\ get_access s
       = (match fst (calc_run s fe st) with
          | inl e => inl e
          | inr _ => inr (Some (access (snd (calc_run s fe st))))
          end,
          set_stats (Some (snd (calc_run s fe st))) s)
    /\ get_top_level_fetch s
       = (match fst (calc_run s fe st) with
          | inl e => inl e
          | inr _ => inr (Some (tidx fe BL.GBUF))
          end,
          set_stats (Some (snd (calc_run s fe st))) s)
    /\ (forall cost,
          get_cost cost s
          = (match fst (calc_run s fe st) with
             | inl e => inl e
             | inr _ =>
                 match cost_of (ops (snd (calc_run s fe st)))
                               (time (snd (calc_run s fe st)))
                               (access (snd (calc_run s fe st))) cost with
                 | Some c => inr c
                 | None => inl OverflowError
                 end
             end,
             set_stats (Some (snd (calc_run s fe st))) s))
    /\ get_scheme_dict s
       = (match fst (calc_run s fe st) with
          | inl e => inl e
          | inr _ => inr (Some d)
          end,
          set_stats (Some (snd (calc_run s fe st))) s)
    /\ sd_ops d = ops (snd (calc_run s fe st))
    /\ sd_time d = time (snd (calc_run s fe st))
    /\ sd_access d = access (snd (calc_run s fe st))
    /\ sd_part_occ d = part_occ st.
Proof.
  intros Hinv Hv.
  pose proof Hinv as Hinv'. unfold stats_inv in Hinv'. rewrite Hv in Hinv'.
  destruct Hinv' as (st & fe & Hst & Hfe & Hu1 & Hu2 & Hu3 & Hfin).
  destruct (run_get_scheme_dict nld s Hinv Hv)
    as (a & b & d & Ea & Eb & _ & _ & R4 & D1 & D2 & D3 & D4).
  rewrite Hst in Ea. rewrite Hfe in Eb. inversion Ea. inversion Eb.
  subst a b. clear Ea Eb.
  exists st, fe, d. repeat (split; [assumption|]).
  split.
  { destruct (run_get_access nld s Hinv Hv)
      as (a & b & Ea & Eb & _ & _ & _ & R).
    rewrite Hst in Ea. rewrite Hfe in Eb. inversion Ea. inversion Eb.
    subst a b. exact R. }
  split.
  { destruct (run_get_top_level_fetch nld s Hinv Hv) as (a & b & Ea & Eb & R).
    rewrite Hst in Ea. rewrite Hfe in Eb. inversion Ea. inversion Eb.
    subst a b. exact R. }
  split.
  { intros cost.
    destruct (run_get_cost nld cost s Hinv Hv) as (a & b & Ea & Eb & R).
    rewrite Hst in Ea. rewrite Hfe in Eb. inversion Ea. inversion Eb.
    subst a b. exact R. }
  auto.
Qed.

(** X6.  On a record a caller can hold, [get_access],
    [get_top_level_fetch], [get_cost] and [get_scheme_dict] raise nothing
    but [OverflowError], and that only on a valid record: every attribute
    they read exists.  On a valid record the first, the second and the
    fourth raise it exactly when one of the six computations of
    [_calc_stats] does, and then [get_cost] raises it too.
    [set_partition_occupation] returns, or fails its assertion, and that
    only on a record whose statistics are finalized. *)
Theorem queries_raise_only_overflow
      (nld : NestedLoopDesc) (tifm tofm tbat : list Z)
      (orders_ : mtab (ltab Z)) (resource : Resource) (options : Option_)
      (s : LoopBlockingScheme) :
  reachable nld tifm tofm tbat orders_ resource options s ->
  (forall e,
      fst (get_access s) = inl e \/ fst (get_top_level_fetch s) = inl e
      \/ fst (get_scheme_dict s) = inl e
      \/ (exists cost, fst (get_cost cost s) = inl e) ->
      e = OverflowError /\ is_valid s = true)
  /\ (is_valid s = true ->
      exists st fe,
        stats s = Some st /\ fetch s = Some fe
        /\ let V := stat_values s fe st in
           let overflow :=
             v_ops V = None \/ v_time V = None \/ v_regf V = None
             \/ v_itcn V = None \/ v_gbuf V = None \/ v_dram V = None in
           (fst (get_access s) = inl OverflowError <-> overflow)
           /\ (fst (get_top_level_fetch s) = inl OverflowError <-> overflow)
           /\ (fst (get_scheme_dict s) = inl OverflowError <-> overflow)
           /\ (forall cost,
                  overflow -> fst (get_cost cost s) = inl OverflowError))
  /\ (forall p,
        fst (set_partition_occupation p s) = inr tt
        \/ (fst (set_partition_occupation p s) = inl AssertionError
            /\ is_valid s = true
            /\ exists st, stats s = Some st /\ finalized_stats st = true)).
Proof.
  intros H.
  pose proof (reachable_stats_inv _ _ _ _ _ _ _ _ H) as Hinv.
  unfold is_valid.
  destruct (valid s) eqn:Hv.
  - destruct (run_queries nld s Hinv Hv)
      as (st & fe & d & Hst & Hfe & _ & _ & _ & _ & R1 & R2 & R3 & R4 & _).
    assert (Hcase :
              (fst (calc_run s fe st) = inr tt
               /\ ~ (v_ops (stat_values s fe st) = None
                     \/ v_time (stat_values s fe st) = None
                     \/ v_regf (stat_values s fe st) = None
                     \/ v_itcn (stat_values s fe st) = None
                     \/ v_gbuf (stat_values s fe st) = None
                     \/ v_dram (stat_values s fe st) = None))
              \/ (fst (calc_run s fe st) = inl OverflowError
                  /\ (v_ops (stat_values s fe st) = None
                      \/ v_time (stat_values s fe st) = None
                      \/ v_regf (stat_values s fe st) = None
                      \/ v_itcn (stat_values s fe st) = None
                      \/ v_gbuf (stat_values s fe st) = None
                      \/ v_dram (stat_values s fe st) = None))).
    { unfold calc_run.
      destruct (store_values_outcome (stat_values s fe st) st)
        as [(E & _ & V1 & V2 & V3 & V4 & V5 & V6) | (E & _ & V)].
      - left. split; [exact E|].
        rewrite V1, V2, V3, V4, V5, V6. intuition discriminate.
      - right. split; assumption. }
    rewrite R1, R2, R4. cbn [fst].
    split; [|split].
    + intros e He. split; [|reflexivity].
      destruct Hcase as [(E & _) | (E & _)]; rewrite E in He.
      * destruct He as [He | [He | [He | (cost & He)]]];
          try discriminate He.
        rewrite R3, E in He. cbn [fst] in He.
        destruct (cost_of _ _ _ cost); [discriminate|].
        inversion He. reflexivity.
      * destruct He as [He | [He | [He | (cost & He)]]];
          try (inversion He; reflexivity).
        rewrite R3, E in He. inversion He. reflexivity.
    + intros _. exists st, fe. split; [exact Hst|]. split; [exact Hfe|].
      cbv zeta.
      destruct Hcase as [(E & Hno) | (E & Hyes)]; rewrite E.
      * repeat split; intros; first [discriminate | contradiction].
      * repeat split; intros;
          first [assumption | reflexivity | rewrite R3, E; reflexivity].
    + intros p. rewrite (run_set_partition_occupation p s st Hv Hst).
      destruct (finalized_stats st) eqn:E.
      * right. cbn [fst]. repeat split; eauto.
      * left. reflexivity.
  - rewrite (invalid_get_access s Hv), (invalid_get_top_level_fetch s Hv),
      (invalid_get_scheme_dict s Hv).
    split; [|split].
    + intros e [He | [He | [He | (cost & He)]]]; try discriminate He.
      rewrite (invalid_get_cost cost s Hv) in He. discriminate He.
    + discriminate.
    + intros p. left. rewrite (invalid_set_partition_occupation p s Hv).
      reflexivity.
Qed.

Lemma dget_dzip2 {A B C} (f : A -> B -> C) (c : de.t)
      (x : dtab A) (y : dtab B) :
  dget c (dzip2 f x y) = f (dget c x) (dget c y).
Proof.
  destruct x as [[a1 a2] a3], y as [[b1 b2] b3]; destruct c; reflexivity.
Qed.

Lemma dget_dzip4 {A B C D E} (f : A -> B -> C -> D -> E) (c : de.t)
      (x : dtab A) (y : dtab B) (z : dtab C) (w : dtab D) :
  dget c (dzip4 f x y z w) = f (dget c x) (dget c y) (dget c z) (dget c w).
Proof.
  destruct x as [[a1 a2] a3], y as [[b1 b2] b3], z as [[c1 c2] c3],
           w as [[d1 d2] d3]; destruct c; reflexivity.
Qed.

(** X7.  The statistics are computed once.  After any call that reads
    them, each of the four queries returns what it would have returned
    before that call, and a second such call leaves the record as the
    first left it. *)
Theorem stats_are_memoized
      (nld : NestedLoopDesc) (tifm tofm tbat : list Z)
      (orders_ : mtab (ltab Z)) (resource : Resource) (options : Option_)
      (s : LoopBlockingScheme) (k k' : call) :
  reachable nld tifm tofm tbat orders_ resource options s ->
  reads_stats k = true -> reads_stats k' = true ->
  fst (get_access (after k s)) = fst (get_access s)
  /\ fst (get_top_level_fetch (after k s)) = fst (get_top_level_fetch s)
  /\ (forall cost, fst (get_cost cost (after k s)) = fst (get_cost cost s))
  /\ fst (get_scheme_dict (after k s)) = fst (get_scheme_dict s)
  /\ after k' (after k s) = after k s.
Proof.
  intros H Hk Hk'.
  pose proof (reachable_stats_inv _ _ _ _ _ _ _ _ H) as Hinv.
  destruct (valid s) eqn:Hv.
  2:{ rewrite (invalid_after k s Hv), (invalid_after k' s Hv).
      repeat split. }
  destruct (after_reads_stats nld k s Hinv Hv Hk)
    as (st & fe & Hst & Hfe & U1 & U2 & U3 & Hfin & Hafter).
  assert (Hinv1 : stats_inv nld (after k s)) by (apply stats_inv_after, Hinv).
  rewrite Hafter in *. clear Hafter.
  set (R := calc_run s fe st) in *.
  set (s1 := set_stats (Some (snd R)) s) in *.
  assert (Hv1 : valid s1 = true) by exact Hv.
  assert (HR : calc_run s1 fe (snd R) = R) by apply calc_run_idem.
  assert (Es : set_stats (Some (snd R)) s1 = s1) by reflexivity.
  destruct (run_queries nld s Hinv Hv)
    as (a & b & d & Ea & Eb & _ & _ & _ & _ & R1 & R2 & R3 & R4 & D1 & D2 & D3 & D4).
  rewrite Hst in Ea. rewrite Hfe in Eb. inversion Ea. inversion Eb.
  subst a b. clear Ea Eb. fold R in R1, R2, R3, R4, D1, D2, D3.
  destruct (run_queries nld s1 Hinv1 Hv1)
    as (a & b & d' & Ea & Eb & _ & _ & _ & _ & R1' & R2' & R3' & R4'
        & D1' & D2' & D3' & D4').
  cbn [stats fetch s1 set_stats] in Ea, Eb.
  rewrite Hfe in Eb. inversion Ea. inversion Eb. subst a b. clear Ea Eb.
  rewrite HR, Es in R1', R2', R3', R4'. rewrite HR in D1', D2', D3'.
  assert (Hd : fst R = inr tt -> d' = d).
  { intros Hok.
    revert R4 R4'. unfold get_scheme_dict.
    rewrite !bind_gets. unfold is_valid. rewrite Hv, Hv1. cbn [negb].
    destruct (run_ensure_stats nld s Hinv Hv)
      as (a & b & Ea & Eb & _ & _ & _ & Re).
    rewrite Hst in Ea. rewrite Hfe in Eb. inversion Ea. inversion Eb.
    subst a b. clear Ea Eb. fold R in Re. fold s1 in Re.
    destruct (run_ensure_stats nld s1 Hinv1 Hv1)
      as (a & b & Ea & Eb & _ & _ & _ & Re').
    cbn [stats fetch s1 set_stats] in Ea, Eb.
    rewrite Hfe in Eb. inversion Ea. inversion Eb. subst a b. clear Ea Eb.
    rewrite HR, Es in Re'.
    rewrite (bind_outcome _ _ _ _ _ Re), (bind_outcome _ _ _ _ _ Re').
    rewrite Hok.
    intros X Y. rewrite X in Y. inversion Y. reflexivity. }
  split; [rewrite R1, R1'; reflexivity|].
  split; [rewrite R2, R2'; reflexivity|].
  split; [intros cost; rewrite R3, R3'; reflexivity|].
  split.
  { rewrite R4, R4'. cbn [fst].
    destruct (fst R) as [e|[]] eqn:Hok; [reflexivity|].
    rewrite (Hd eq_refl). reflexivity. }
  destruct (after_reads_stats nld k' s1 Hinv1 Hv1 Hk')
    as (a & b & Ea & Eb & _ & _ & _ & _ & ->).
  cbn [stats fetch s1 set_stats] in Ea, Eb.
  rewrite Hfe in Eb. inversion Ea. inversion Eb. subst a b.
  rewrite HR. exact Es.
Qed.

(** X8.  Reading the statistics closes the window for setting the
    occupation, if the read returns: on a valid record a caller can hold,
    on the record a call of [get_access], [get_top_level_fetch],
    [get_cost] or [get_scheme_dict] that returned leaves behind,
    [set_partition_occupation] fails its assertion and changes nothing.
    When one of the first, second and fourth raises, which it does with
    [OverflowError] before [finalized_stats] is set, the window stays
    open: on the record left behind [set_partition_occupation]
    returns. *)
Theorem set_partition_occupation_after_read
      (nld : NestedLoopDesc) (tifm tofm tbat : list Z)
      (orders_ : mtab (ltab Z)) (resource : Resource) (options : Option_)
      (s : LoopBlockingScheme) (p : F) :
  reachable nld tifm tofm tbat orders_ resource options s ->
  is_valid s = true ->
  (forall r s',
      get_access s = (inr r, s') ->
      set_partition_occupation p s' = (inl AssertionError, s'))
  /\ (forall r s',
         get_top_level_fetch s = (inr r, s') ->
         set_partition_occupation p s' = (inl AssertionError, s'))
  /\ (forall cost r s',
         get_cost cost s = (inr r, s') ->
         set_partition_occupation p s' = (inl AssertionError, s'))
  /\ (forall r s',
         get_scheme_dict s = (inr r, s') ->
         set_partition_occupation p s' = (inl AssertionError, s'))
  /\ (forall e s',
         get_access s = (inl e, s') \/ get_top_level_fetch s = (inl e, s')
         \/ get_scheme_dict s = (inl e, s') ->
         e = OverflowError
         /\ (exists st, stats s' = Some st /\ finalized_stats st = false)
         /\ fst (set_partition_occupation p s') = inr tt).
Proof.
  intros H Hv. unfold is_valid in Hv.
  pose proof (reachable_stats_inv _ _ _ _ _ _ _ _ H) as Hinv.
  destruct (run_queries nld s Hinv Hv)
    as (st & fe & d & Hst & Hfe & _ & _ & _ & Hfin & R1 & R2 & R3 & R4 & _).
  set (R := calc_run s fe st) in *.
  assert (Hret : forall s', fst R = inr tt ->
                            s' = set_stats (Some (snd R)) s ->
             set_partition_occupation p s' = (inl AssertionError, s')).
  { intros s' Hok ->.
    rewrite (run_set_partition_occupation p (set_stats (Some (snd R)) s)
               (snd R) Hv eq_refl).
    unfold R. rewrite (calc_run_finalized s fe st Hok). reflexivity. }
  assert (Hraise : forall e s', fst R = inl e ->
                                s' = set_stats (Some (snd R)) s ->
             e = OverflowError
             /\ (exists st', stats s' = Some st'
                             /\ finalized_stats st' = false)
             /\ fst (set_partition_occupation p s') = inr tt).
  { intros e s' Hbad ->.
    destruct (calc_run_outcome s fe st) as [Hok | [Hov Hsame]];
      fold R in Hok || fold R in Hov, Hsame; [congruence|].
    assert (Hf : finalized_stats (snd R) = false).
    { rewrite Hsame. destruct (finalized_stats st) eqn:E; [|reflexivity].
      specialize (Hfin eq_refl). fold R in Hfin. rewrite Hfin in Hbad.
      discriminate Hbad. }
    split; [congruence|].
    split; [exists (snd R); split; [reflexivity | exact Hf]|].
    rewrite (run_set_partition_occupation p (set_stats (Some (snd R)) s)
               (snd R) Hv eq_refl), Hf.
    reflexivity. }
  split; [|split; [|split; [|split]]].
  - intros r s' E. rewrite R1 in E.
    destruct (fst R) as [e|[]] eqn:Hok; [discriminate E|].
    inversion E. apply Hret; reflexivity.
  - intros r s' E. rewrite R2 in E.
    destruct (fst R) as [e|[]] eqn:Hok; [discriminate E|].
    inversion E. apply Hret; reflexivity.
  - intros cost r s' E. rewrite R3 in E.
    destruct (fst R) as [e|[]] eqn:Hok; [discriminate E|].
    inversion E. apply Hret; reflexivity.
  - intros r s' E. rewrite R4 in E.
    destruct (fst R) as [e|[]] eqn:Hok; [discriminate E|].
    inversion E. apply Hret; reflexivity.
  - intros e s' [E | [E | E]];
      [rewrite R1 in E | rewrite R2 in E | rewrite R4 in E];
      destruct (fst R) as [e'|[]] eqn:Hbad; try discriminate E;
      inversion E; subst e'; apply (Hraise e); reflexivity.
Qed.

(** X9.  The rows of the access table that C7 does not cover, on a valid
    record a caller can hold on which [get_access] returns a table, for
    [N] the product of the three total loop counts and [occ] the
    occupation the record holds: at REGF [unit_access * N * m * occ] with
    [m] = 2 for the output feature maps and 1 otherwise; at ITCN
    [unit_access * total_units * fetch at REGF]; at GBUF the same times 1
    for a resident category and 0 for a bypassed one.  A product equal to
    [Some x] did not raise and has the value [x]. *)
Theorem access_rows
      (nld : NestedLoopDesc) (tifm tofm tbat : list Z)
      (orders_ : mtab (ltab Z)) (resource : Resource) (options : Option_)
      (s : LoopBlockingScheme) (c : de.t) (acc : mtab (dtab F)) :
  reachable nld tifm tofm tbat orders_ resource options s ->
  is_valid s = true ->
  fst (get_access s) = inr (Some acc) ->
  exists (st : Stats) (fe : list (dtab Z)),
    stats s = Some st /\ fetch s = Some fe
    /\ mul4 (dget c (mget me.REGF (nld_unit_access nld)))
            (of_int (Util.prod tifm * Util.prod tofm * Util.prod tbat))
            (of_int (match c with de.OFM => 2 | _ => 1 end))
            (part_occ st)
       = Some (dget c (mget me.REGF acc))
    /\ mul3 (dget c (mget me.ITCN (nld_unit_access nld)))
            (of_int (units_of tifm tofm tbat c))
            (of_int (dget c (tidx fe BL.REGF)))
       = Some (dget c (mget me.ITCN acc))
    /\ mul4 (dget c (mget me.GBUF (nld_unit_access nld)))
            (of_int (units_of tifm tofm tbat c))
            (of_int (dget c (tidx fe BL.REGF)))
            (of_int (if dget c (stored_in_gbuf s) then 1 else 0))
       = Some (dget c (mget me.GBUF acc)).
Proof.
  intros H Hv Hret. unfold is_valid in Hv.
  pose proof (reachable_stats_inv _ _ _ _ _ _ _ _ H) as Hinv.
  destruct (get_access_returned nld s acc Hinv Hv Hret)
    as (st & fe & Hst & Hfe & _ & _ & Hu & Hok & ->).
  exists st, fe. repeat (split; [assumption|]).
  destruct (calc_run_values s fe st Hok) as (_ & _ & V3 & V4 & V5 & _).
  apply (dall_dget _ _ c) in V3, V4, V5.
  cbn [v_regf v_itcn v_gbuf stat_values] in V3, V4, V5.
  rewrite dget_dzip2 in V3. rewrite dget_dzip3 in V4. rewrite dget_dzip4 in V5.
  rewrite Hu in V3, V4, V5.
  rewrite (total_units_reachable _ _ _ _ _ _ _ _ c H) in V4, V5.
  pose proof (reachable_fields _ _ _ _ _ _ _ _ H)
    as (_ & _ & _ & _ & E5 & E6 & E7 & _).
  rewrite E5, E6, E7 in V3.
  split; [|split; [exact V4 | exact V5]].
  destruct c; exact V3.
Qed.


(* ================================================================== *)
(** ** Further properties of the unit counts and the fetch counts *)

(** X11.  The unit counts nest: what REGF buffers of a category is the
    product of the innermost factors of its two loops; GBUF buffers that
    many times the product of the middle factors; and the total units
    are what GBUF buffers times the product of the outermost factors. *)
Theorem unit_cnt_nesting
      (nld : NestedLoopDesc) (tifm tofm tbat : list Z)
      (orders_ : mtab (ltab Z)) (resource : Resource) (options : Option_)
      (s : LoopBlockingScheme) (c : de.t) :
  reachable nld tifm tofm tbat orders_ resource options s ->
  dget c (tidx (unit_cnt s) BL.REGF)
  = zidx (tiling s (fst (related c))) 2 * zidx (tiling s (snd (related c))) 2
  /\ dget c (tidx (unit_cnt s) BL.GBUF)
     = zidx (tiling s (fst (related c))) 1
       * zidx (tiling s (snd (related c))) 1
       * dget c (tidx (unit_cnt s) BL.REGF)
  /\ dget c (total_units s)
     = zidx (tiling s (fst (related c))) 0
       * zidx (tiling s (snd (related c))) 0
       * dget c (tidx (unit_cnt s) BL.GBUF).
Proof.
  intros H. apply reachable_fields in H.
  destruct H as (E1 & E2 & E3 & _ & E5 & E6 & E7 & _ & E9 & L1 & L2 & L3).
  unfold total_units. rewrite E9, E5, E6, E7. unfold unit_cnt_level.
  rewrite E1, E2, E3.
  destruct tifm as [|i0 [|i1 [|i2 [|]]]]; try discriminate L1.
  destruct tofm as [|o0 [|o1 [|o2 [|]]]]; try discriminate L2.
  destruct tbat as [|b0 [|b1 [|b2 [|]]]]; try discriminate L3.
  cbn [tidx nth BL.REGF BL.GBUF skipn].
  rewrite !prod_cons, !prod_nil.
  destruct c; cbn [dget related fst snd tiling zidx nth];
    rewrite ?E1, ?E2, ?E3; cbn [nth]; repeat split; ring.
Qed.

(** X12.  A category whose two loops both have factor 1 at a level takes
    its fetch count from the level outside: at GBUF it is 1, at REGF it
    is the count at GBUF. *)
Theorem fetch_inherits
      (nld : NestedLoopDesc) (tifm tofm tbat : list Z)
      (orders_ : mtab (ltab Z)) (resource : Resource) (options : Option_)
      (s : LoopBlockingScheme) (fe : list (dtab Z)) (c : de.t) :
  reachable nld tifm tofm tbat orders_ resource options s ->
  fetch s = Some fe ->
  (zidx (tiling s (fst (related c))) BL.GBUF = 1 ->
   zidx (tiling s (snd (related c))) BL.GBUF = 1 ->
   dget c (tidx fe BL.GBUF) = 1)
  /\ (zidx (tiling s (fst (related c))) BL.REGF = 1 ->
      zidx (tiling s (snd (related c))) BL.REGF = 1 ->
      dget c (tidx fe BL.REGF) = dget c (tidx fe BL.GBUF)).
Proof.
  intros H Hfe.
  rewrite (reachable_fetch _ _ _ _ _ _ _ _ _ H Hfe).
  unfold fetch_table, BL.GBUF, BL.REGF. cbn [tidx nth].
  split; intros A B; unfold fetch_level at 1;
    destruct c; cbn [dget related fst snd tiling] in *;
    rewrite A, B; reflexivity.
Qed.

Lemma lp_neq_cases (a : option le.t) (l : le.t) :
  lp_neq a l = 0%nat \/ lp_neq a l = 1%nat.
Proof.
  destruct a as [x|]; [|right; reflexivity].
  destruct x, l; cbn; auto.
Qed.

(** X13.  With positive tiling factors every fetch count is at least 1,
    and a category is never fetched into GBUF more often than into REGF. *)
Theorem fetch_bounds
      (nld : NestedLoopDesc) (tifm tofm tbat : list Z)
      (orders_ : mtab (ltab Z)) (resource : Resource) (options : Option_)
      (s : LoopBlockingScheme) (fe : list (dtab Z)) (c : de.t) :
  reachable nld tifm tofm tbat orders_ resource options s ->
  fetch s = Some fe ->
  all_pos tifm = true -> all_pos tofm = true -> all_pos tbat = true ->
  1 <= dget c (tidx fe BL.GBUF) <= dget c (tidx fe BL.REGF).
Proof.
  intros H Hfe Pi Po Pb.
  rewrite (reachable_fetch _ _ _ _ _ _ _ _ _ H Hfe).
  apply reachable_fields in H.
  destruct H as (E1 & E2 & E3 & _ & _ & _ & _ & _ & _ & L1 & L2 & L3).
  destruct tifm as [|i0 [|i1 [|i2 [|]]]]; try discriminate L1.
  destruct tofm as [|o0 [|o1 [|o2 [|]]]]; try discriminate L2.
  destruct tbat as [|b0 [|b1 [|b2 [|]]]]; try discriminate L3.
  unfold all_pos in Pi, Po, Pb. cbn [forallb] in Pi, Po, Pb.
  repeat match goal with
         | H : _ && _ = true |- _ =>
             apply andb_true_iff in H; destruct H
         | H : (0 <? _) = true |- _ => apply Z.ltb_lt in H
         end.
  unfold fetch_table, BL.GBUF, BL.REGF. cbn [tidx nth].
  unfold fetch_level. rewrite E1, E2, E3.
  cbn [zidx nth Nat.ltb Nat.leb Nat.sub tidx].
  destruct (lp_neq_cases (_innermost_nontrivial_loop s 0) (unrelated c)) as [A|A];
    destruct (lp_neq_cases (_innermost_nontrivial_loop s 1) (unrelated c)) as [B|B];
    destruct c; cbn [dget unrelated] in *; rewrite A, B;
    cbn [Nat.add firstn];
    rewrite ?prod_cons, ?prod_nil;
    repeat match goal with
           | |- context [?x * ?y =? 1] => destruct (x * y =? 1)
           end;
    nia.
Qed.


(** X14.  The loop [_innermost_nontrivial_loop] picks.  It is [None]
    exactly when the three factors of the level are 1.  Otherwise it is
    a loop whose factor is not 1 and, among the loops whose factor is
    not 1, one with the smallest order value; should two of them have
    the same order value, the first in the order of [LoopEnum]. *)
Theorem innermost_nontrivial_loop_spec
      (s : LoopBlockingScheme) (bl : nat) :
  (_innermost_nontrivial_loop s bl = None
   <-> zidx (ti s) bl = 1 /\ zidx (to s) bl = 1 /\ zidx (tb s) bl = 1)
  /\ (forall l,
        _innermost_nontrivial_loop s bl = Some l ->
        zidx (tiling s l) bl <> 1
        /\ forall l',
            zidx (tiling s l') bl <> 1 ->
            lget l (oidx (orders s) bl) < lget l' (oidx (orders s) bl)
            \/ (lget l (oidx (orders s) bl) = lget l' (oidx (orders s) bl)
                /\ le.to_Z l <= le.to_Z l')).
Proof.
  unfold _innermost_nontrivial_loop.
  destruct (oidx (orders s) bl) as [[p q] r].
  remember (zidx (ti s) bl) as a eqn:Ha.
  remember (zidx (to s) bl) as b eqn:Hb.
  remember (zidx (tb s) bl) as c eqn:Hc.
  assert (Ht : forall l, zidx (tiling s l) bl
                         = match l with le.IFM => a | le.OFM => b
                                      | le.BAT => c end).
  { intros []; cbn [tiling]; congruence. }
  cbn [lget]. unfold py_min, fold_left, nt_tuple_ltb.
  destruct (Z.eqb_spec a 1) as [Ea|Ea];
    destruct (Z.eqb_spec b 1) as [Eb|Eb];
    destruct (Z.eqb_spec c 1) as [Ec|Ec];
    cbn [ordval_eqb ordval_ltb lp_ltb le.to_Z Bool.eqb negb snd];
    repeat match goal with
           | |- context [?x =? ?y] => destruct (Z.eqb_spec x y)
           | |- context [?x <? ?y] => destruct (Z.ltb_spec x y)
           end;
    cbn [snd le.to_Z] in *;
    (split;
     [ split;
       [ intros E; try discriminate E; lia
       | intros (? & ? & ?); first [reflexivity | exfalso; lia] ]
     | intros l E;
       first
         [ discriminate E
         | inversion E; subst l; rewrite Ht; split;
           [ first [assumption | lia]
           | intros l' Hl'; rewrite Ht in Hl'; destruct l'; cbn [le.to_Z];
             lia ] ] ]).
Qed.

(** X15.  With positive tiling factors and unit sizes that are not
    negative, no data size is negative, the size of one category is at
    most the total of its level, and a bypassed category takes no room
    in GBUF. *)
Theorem data_size_bounds
      (nld : NestedLoopDesc) (tifm tofm tbat : list Z)
      (orders_ : mtab (ltab Z)) (resource : Resource) (options : Option_)
      (s : LoopBlockingScheme) (bl : nat) (c : de.t) :
  reachable nld tifm tofm tbat orders_ resource options s ->
  all_pos tifm = true -> all_pos tofm = true -> all_pos tbat = true ->
  (forall c', 0 <= dget c' (usize_gbuf nld)) ->
  (forall c', 0 <= dget c' (usize_regf nld)) ->
  (bl < BL.NUM)%nat ->
  0 <= data_size_of s bl c <= data_size s bl
  /\ (dget c (stored_in_gbuf s) = false -> data_size_of s BL.GBUF c = 0).
Proof.
  intros H Pi Po Pb Ug Ur Hbl.
  apply reachable_fields in H.
  destruct H as (E1 & E2 & E3 & _ & _ & _ & _ & E8 & E9 & _).
  apply all_pos_Forall in Pi, Po, Pb.
  split.
  2:{ intros Hc. unfold data_size_of. cbn [Nat.eqb BL.GBUF]. rewrite Hc. lia. }
  assert (Hnn : forall c', 0 <= data_size_of s bl c').
  { intros c'. unfold data_size_of. rewrite E8, E9. unfold unit_cnt_level.
    rewrite E1, E2, E3.
    pose proof (prod_pos _ (Forall_skipn_pos 1 _ Pi)).
    pose proof (prod_pos _ (Forall_skipn_pos 1 _ Po)).
    pose proof (prod_pos _ (Forall_skipn_pos 1 _ Pb)).
    pose proof (prod_pos _ (Forall_skipn_pos 2 _ Pi)).
    pose proof (prod_pos _ (Forall_skipn_pos 2 _ Po)).
    pose proof (prod_pos _ (Forall_skipn_pos 2 _ Pb)).
    pose proof (Ug c'). pose proof (Ur c').
    destruct (usize_gbuf nld) as [[g0 g1] g2].
    destruct (usize_regf nld) as [[r0 r1] r2].
    unfold BL.NUM in Hbl.
    destruct bl as [|[|bl]]; [| |lia];
      cbn [tidx nth Nat.eqb BL.GBUF];
      destruct c'; cbn [dget] in *;
      try destruct (dget _ (stored_in_gbuf s)); nia. }
  split; [apply Hnn|].
  pose proof (Hnn de.FIL). pose proof (Hnn de.IFM). pose proof (Hnn de.OFM).
  unfold data_size, zsum, de.all. cbn [map fold_left].
  destruct c; lia.
Qed.

(* ================================================================== *)
(** ** Index generation with orders that are not permutations *)







(* ================================================================== *)
(** ** The order in which the indexes are generated *)








(* ================================================================== *)
(** ** The occupation and the statistics together *)

(** X18.  A freshly constructed valid record has the float [1.] as its
    occupation and statistics that are not finalized, so that the
    occupation can still be set. *)
Theorem fresh_record_defaults
      (nld : NestedLoopDesc) (tifm tofm tbat : list Z)
      (orders_ : mtab (ltab Z)) (resource : Resource) (options : Option_)
      (s : LoopBlockingScheme) (p : F) :
  init nld tifm tofm tbat orders_ resource options = inr s ->
  is_valid s = true ->
  exists st,
    stats s = Some st
    /\ part_occ st = fone
    /\ finalized_stats st = false
    /\ fst (set_partition_occupation p s) = inr tt.
Proof.
  intros Hinit Hv. unfold is_valid in Hv.
  apply init_inv in Hinit. destruct Hinit as [_ Hinit]. cbv zeta in Hinit.
  destruct Hinit as [[_ Hs] | [(_ & _ & Hs) | (_ & _ & Hs)]]; revert Hs Hv.
  - generalize (at_first_check nld tifm tofm tbat orders_ options).
    intros a -> Hv. discriminate Hv.
  - generalize (at_second_check
                  (at_first_check nld tifm tofm tbat orders_ options)).
    intros a -> Hv. discriminate Hv.
  - generalize (at_second_check
                  (at_first_check nld tifm tofm tbat orders_ options)).
    intros a -> Hv. exists (fresh_stats nld).
    repeat (split; [reflexivity|]).
    rewrite (run_set_partition_occupation p _ (fresh_stats nld) Hv eq_refl).
    reflexivity.
Qed.

(** X19.  The occupation set is the occupation used.  On a valid record
    a caller can hold whose statistics are not finalized, when
    [get_scheme_dict] returns a summary after
    [set_partition_occupation(p)], the summary reports occupation [p],
    operations [unit_ops * N * p] and time [unit_time * N], and
    [get_top_level_fetch] returns the fetch counts at GBUF, which the
    call did not change.  A product equal to [Some x] did not raise and
    has the value [x]. *)
Theorem occupation_takes_effect
      (nld : NestedLoopDesc) (tifm tofm tbat : list Z)
      (orders_ : mtab (ltab Z)) (resource : Resource) (options : Option_)
      (s : LoopBlockingScheme) (st : Stats) (p : F) (d : SchemeDict) :
  reachable nld tifm tofm tbat orders_ resource options s ->
  is_valid s = true ->
  stats s = Some st -> finalized_stats st = false ->
  fst (get_scheme_dict (after (Call_set_partition_occupation p) s))
  = inr (Some d) ->
  sd_part_occ d = p
  /\ mul3 (nld_unit_ops nld)
          (of_int (Util.prod tifm * Util.prod tofm * Util.prod tbat)) p
     = Some (sd_ops d)
  /\ fmul (nld_unit_time nld)
          (of_int (Util.prod tifm * Util.prod tofm * Util.prod tbat))
     = Some (sd_time d)
  /\ exists fe,
      fetch s = Some fe
      /\ fst (get_top_level_fetch (after (Call_set_partition_occupation p) s))
         = inr (Some (tidx fe BL.GBUF)).
Proof.
  intros H Hv Hst Hfin. unfold is_valid in Hv.
  assert (H' : reachable nld tifm tofm tbat orders_ resource options
                         (after (Call_set_partition_occupation p) s))
    by (apply reach_call; exact H).
  pose proof (reachable_stats_inv _ _ _ _ _ _ _ _ H') as Hinv'.
  pose proof (reachable_fields _ _ _ _ _ _ _ _ H')
    as (_ & _ & _ & _ & E5 & E6 & E7 & _).
  revert H' Hinv' E5 E6 E7. cbn [after].
  rewrite (run_set_partition_occupation p s st Hv Hst), Hfin. cbn [snd].
  set (s' := set_stats (Some (st_set_part_occ p st)) s).
  intros H' Hinv' E5 E6 E7 Hret.
  assert (Hv' : valid s' = true) by exact Hv.
  destruct (run_queries nld s' Hinv' Hv')
    as (a & fe & d' & Ea & Efe & U1 & U2 & _ & _ & _ & R2 & _ & R4
        & D1 & D2 & _ & D4).
  cbn [stats s' set_stats] in Ea. inversion Ea. subst a. clear Ea.
  rewrite R4 in Hret. rewrite R2. cbn [fst] in *.
  destruct (fst (calc_run s' fe (st_set_part_occ p st))) as [e|[]] eqn:Hok;
    [discriminate Hret|].
  inversion Hret. subst d'. clear Hret.
  destruct (calc_run_values s' fe (st_set_part_occ p st) Hok) as (Ho & Ht & _).
  cbn [v_ops v_time stat_values] in Ho, Ht.
  rewrite U1, E5, E6, E7 in Ho. rewrite U2, E5, E6, E7 in Ht.
  cbn [part_occ st_set_part_occ] in Ho, D4.
  rewrite D1, D2.
  split; [exact D4|]. split; [exact Ho|]. split; [exact Ht|].
  exists fe. split; [exact Efe | reflexivity].
Qed.

End Scheme.

(* ================================================================== *)
(** ** The properties at the sample inputs *)

(** Closes a goal about the sample inputs by evaluation. *)
Ltac by_evaluation := vm_compute; first [reflexivity | discriminate | lia].

Lemma sample_valid_reachable :
  reachable (F:=xnum) sample_nld sample_ti sample_to sample_tb
            sample_orders roomy bypass_all sample_valid.
Proof. apply reach_init. by_evaluation. Defined.

Lemma sample_invalid_reachable :
  reachable (F:=xnum) sample_nld sample_ti sample_to sample_tb
            sample_orders cramped bypass_all sample_invalid.
Proof. apply reach_init. by_evaluation. Defined.

(** The rule of C1 as the specification words it fails on the sample
    record: at GBUF the batch loop, on which the filters do not depend, is
    the innermost non-trivial loop, the two loops of the filters do not
    both have factor 1, and yet the fetch count of the filters is not
    the product of the batch factors up to and including this level. *)
Lemma fetch_count_rule_as_specified_fails :
  let s := sample_valid (F:=xnum) in
  exists fe,
    fetch s = Some fe
    /\ ~ (zidx (tiling s (fst (related de.FIL))) BL.GBUF = 1
          /\ zidx (tiling s (snd (related de.FIL))) BL.GBUF = 1)
    /\ ~ (dget de.FIL (tidx fe BL.GBUF)
          = fetch_of_product de.FIL
              (Util.prod (firstn (S BL.GBUF) (tiling s (unrelated de.FIL))))
          <-> _innermost_nontrivial_loop s BL.GBUF = Some (unrelated de.FIL)).
Proof.
  cbv zeta. exists [(1, 1, 3); (2, 1, 3)]. split; [by_evaluation|]. split.
  - intros [H _]. vm_compute in H. discriminate H.
  - intros [_ H].
    assert (Hin : _innermost_nontrivial_loop (sample_valid (F:=xnum)) BL.GBUF
                  = Some (unrelated de.FIL)) by by_evaluation.
    specialize (H Hin). vm_compute in H. discriminate H.
Qed.

Lemma fetch_count_rule_witness :
  fetch (sample_valid (F:=xnum)) = Some [(1, 1, 3); (2, 1, 3)]
  /\ _innermost_nontrivial_loop (sample_valid (F:=xnum)) BL.GBUF
     = Some (unrelated de.FIL)
  /\ dget de.FIL (tidx [(1, 1, 3); (2, 1, 3)] BL.GBUF)
     = fetch_of_product de.FIL
         (Util.prod (firstn BL.GBUF (tiling (sample_valid (F:=xnum)) le.BAT))).
Proof.
  assert (Hfe : fetch (sample_valid (F:=xnum)) = Some [(1, 1, 3); (2, 1, 3)])
    by by_evaluation.
  assert (Hin : _innermost_nontrivial_loop (sample_valid (F:=xnum)) BL.GBUF
                = Some (unrelated de.FIL)) by by_evaluation.
  split; [exact Hfe|]. split; [exact Hin|].
  apply (fetch_count_rule (F:=xnum)
           sample_nld sample_ti sample_to sample_tb
           sample_orders roomy bypass_all sample_valid
           [(1, 1, 3); (2, 1, 3)] BL.GBUF de.FIL).
  - exact sample_valid_reachable.
  - exact Hfe.
  - by_evaluation.
  - by_evaluation.
  - by_evaluation.
  - by_evaluation.
  - intros [H _]. vm_compute in H. discriminate H.
  - exact Hin.
Defined.

Lemma valid_fits_capacity_witness :
  is_valid (sample_valid (F:=xnum)) = true
  /\ data_size (sample_valid (F:=xnum)) BL.REGF <= size_regf roomy
  /\ data_size (sample_valid (F:=xnum)) BL.GBUF <= size_gbuf roomy.
Proof.
  assert (Hv : is_valid (sample_valid (F:=xnum)) = true) by by_evaluation.
  split; [exact Hv|].
  exact (valid_fits_capacity (F:=xnum)
           sample_nld sample_ti sample_to sample_tb
           sample_orders roomy bypass_all sample_valid
           sample_valid_reachable Hv).
Defined.




Lemma invalid_queries_degrade_witness :
  size_regf cramped < data_size (sample_invalid (F:=xnum)) BL.REGF
  /\ is_valid (sample_invalid (F:=xnum)) = false
  /\ get_cost {| mac_op := Num 1;
                 mem_hier := MTab (Num 1) (Num 1) (Num 1) (Num 1);
                 unit_static := Num 1 |}
              (sample_invalid (F:=xnum))
     = (inr PInf, sample_invalid)
  /\ get_access (sample_invalid (F:=xnum)) = (inr None, sample_invalid).
Proof.
  assert (Hbig : size_regf cramped
                 < data_size (sample_invalid (F:=xnum)) BL.REGF)
    by by_evaluation.
  split; [exact Hbig|].
  exact (invalid_queries_degrade (F:=xnum)
           sample_nld sample_ti sample_to sample_tb
           sample_orders cramped bypass_all sample_invalid
           {| mac_op := Num 1;
              mem_hier := MTab (Num 1) (Num 1) (Num 1) (Num 1);
              unit_static := Num 1 |}
           sample_invalid_reachable (or_intror Hbig)).
Defined.

Lemma stored_in_gbuf_monotone_witness :
  init_head (F:=xnum) sample_nld sample_ti sample_to sample_tb
            sample_orders bypass_all blank = (inr tt, sample_head)
  /\ dget de.FIL (stored_in_gbuf (sample_head (F:=xnum)))
     = negb (dget de.FIL (sw_gbuf_bypass bypass_all))
  /\ (forall k : call,
         stored_in_gbuf (after k (sample_valid (F:=xnum)))
         = stored_in_gbuf (sample_valid (F:=xnum))).
Proof.
  assert (Hhead : init_head (F:=xnum) sample_nld sample_ti sample_to sample_tb
                            sample_orders bypass_all blank
                  = (inr tt, sample_head)) by by_evaluation.
  split; [exact Hhead|].
  pose proof (stored_in_gbuf_monotone (F:=xnum)
                sample_nld sample_ti sample_to sample_tb
                sample_orders roomy bypass_all sample_head sample_valid
                de.FIL Hhead sample_valid_reachable) as (H1 & _ & _ & H4).
  split; [exact H1 | exact H4].
Defined.

Lemma dram_access_round_trip_witness :
  is_valid (sample_valid (F:=xnum)) = true
  /\ exists (acc : mtab (dtab xnum)) (top_fetch : dtab Z),
      fst (get_access (sample_valid (F:=xnum))) = inr (Some acc)
      /\ fst (get_top_level_fetch (sample_valid (F:=xnum)))
         = inr (Some top_fetch)
      /\ mul3 (dget de.OFM (mget me.DRAM (nld_unit_access sample_nld)))
              (of_int (units_of sample_ti sample_to sample_tb de.OFM))
              (of_int (dget de.OFM top_fetch))
         = Some (dget de.OFM (mget me.DRAM acc)).
Proof.
  assert (Hv : is_valid (sample_valid (F:=xnum)) = true) by by_evaluation.
  assert (Hret : exists acc,
             fst (get_access (sample_valid (F:=xnum))) = inr (Some acc))
    by (vm_compute; eexists; reflexivity).
  destruct Hret as (acc & Hret).
  split; [exact Hv|].
  destruct (dram_access_round_trip (F:=xnum)
              sample_nld sample_ti sample_to sample_tb
              sample_orders roomy bypass_all sample_valid de.OFM acc
              sample_valid_reachable Hv Hret)
    as (top_fetch & fe & H2 & _ & _ & H5).
  exists acc, top_fetch.
  split; [exact Hret|]. split; [exact H2 | exact H5].
Defined.

Lemma ops_and_time_witness :
  is_valid (sample_valid (F:=xnum)) = true
  /\ exists (d : SchemeDict (F:=xnum)),
      fst (get_scheme_dict (sample_valid (F:=xnum))) = inr (Some d)
      /\ mul3 (nld_unit_ops sample_nld)
              (of_int (Util.prod sample_ti * Util.prod sample_to
                       * Util.prod sample_tb))
              (sd_part_occ d)
         = Some (sd_ops d)
      /\ fmul (nld_unit_time sample_nld)
              (of_int (Util.prod sample_ti * Util.prod sample_to
                       * Util.prod sample_tb))
         = Some (sd_time d).
Proof.
  assert (Hv : is_valid (sample_valid (F:=xnum)) = true) by by_evaluation.
  assert (Hret : exists d,
             fst (get_scheme_dict (sample_valid (F:=xnum))) = inr (Some d))
    by (vm_compute; eexists; reflexivity).
  destruct Hret as (d & Hret).
  split; [exact Hv|].
  destruct (ops_and_time (F:=xnum)
              sample_nld sample_ti sample_to sample_tb
              sample_orders roomy bypass_all sample_valid d
              sample_valid_reachable Hv Hret)
    as (st & _ & H3 & H4 & H5).
  exists d. split; [exact Hret|]. rewrite H3. split; [exact H4 | exact H5].
Defined.

(** The claim of C9 as the specification words it fails on the sample
    record: before any statistics are computed a first call sets the
    occupation to 1/2, and a second call is accepted as well and sets it
    to 3/4. *)
Lemma set_partition_occupation_twice :
  let s := sample_valid (F:=xnum) in
  let r1 := set_partition_occupation (Num (1 # 2)) s in
  let r2 := set_partition_occupation (Num (3 # 4)) (snd r1) in
  is_valid s = true
  /\ fst r1 = inr tt
  /\ option_map part_occ (stats (snd r1)) = Some (Num (1 # 2))
  /\ fst r2 = inr tt
  /\ option_map part_occ (stats (snd r2)) = Some (Num (3 # 4)).
Proof. cbv zeta. repeat split; by_evaluation. Qed.

Lemma set_partition_occupation_contract_witness :
  is_valid (sample_invalid (F:=xnum)) = false
  /\ set_partition_occupation (Num (1 # 2)) (sample_invalid (F:=xnum))
     = (inr tt, sample_invalid).
Proof.
  assert (Hv : is_valid (sample_invalid (F:=xnum)) = false) by by_evaluation.
  split; [exact Hv|].
  exact (proj1 (set_partition_occupation_contract (F:=xnum)
                  sample_nld sample_ti sample_to sample_tb
                  sample_orders cramped bypass_all sample_invalid
                  (Num (1 # 2)) (Num (3 # 4)) sample_invalid_reachable)
               Hv).
Defined.

Lemma regf_size_ignores_residency_witness :
  init_head (F:=xnum) sample_nld sample_ti sample_to sample_tb
            sample_orders bypass_all blank = (inr tt, sample_head)
  /\ init (F:=xnum) sample_nld sample_ti sample_to sample_tb
          sample_orders roomy bypass_all = inr sample_valid
  /\ data_size (sample_valid (F:=xnum)) BL.REGF
     = data_size (sample_head (F:=xnum)) BL.REGF
  /\ data_size (sample_valid (F:=xnum)) BL.GBUF
     <= data_size (set_stored_in_gbuf
                     (dset de.IFM true (stored_in_gbuf (sample_valid (F:=xnum))))
                     (sample_valid (F:=xnum))) BL.GBUF.
Proof.
  assert (Hhead : init_head (F:=xnum) sample_nld sample_ti sample_to sample_tb
                            sample_orders bypass_all blank
                  = (inr tt, sample_head)) by by_evaluation.
  assert (Hinit : init (F:=xnum) sample_nld sample_ti sample_to sample_tb
                       sample_orders roomy bypass_all = inr sample_valid)
    by by_evaluation.
  split; [exact Hhead|]. split; [exact Hinit|].
  pose proof (regf_size_ignores_residency (F:=xnum)
                sample_nld sample_ti sample_to sample_tb
                sample_orders roomy bypass_all sample_head sample_valid
                Hhead Hinit) as (_ & H2 & H3 & _).
  split; [exact H2|].
  apply H3; try by_evaluation.
  intros c. destruct c; by_evaluation.
Defined.

(* ================================================================== *)
(** ** The further properties at the sample inputs *)

Lemma sample_huge_reachable :
  reachable (F:=pynum) sample_nld huge_ti huge_to huge_tb
            sample_orders roomy bypass_all sample_huge.
Proof. apply reach_init. by_evaluation. Defined.

Lemma sample_tied_reachable :
  reachable (F:=xnum) sample_nld sample_ti sample_to sample_tb
            tied_orders roomy bypass_all sample_tied.
Proof. apply reach_init. by_evaluation. Defined.

Lemma valid_iff_fits_witness :
  data_size (sample_valid (F:=xnum)) BL.REGF <= size_regf roomy
  /\ data_size (sample_valid (F:=xnum)) BL.GBUF <= size_gbuf roomy
  /\ is_valid (sample_valid (F:=xnum)) = true.
Proof.
  assert (H1 : data_size (sample_valid (F:=xnum)) BL.REGF <= size_regf roomy)
    by by_evaluation.
  assert (H2 : data_size (sample_valid (F:=xnum)) BL.GBUF <= size_gbuf roomy)
    by by_evaluation.
  split; [exact H1|]. split; [exact H2|].
  exact (proj2 (valid_iff_fits (F:=xnum)
                  sample_nld sample_ti sample_to sample_tb
                  sample_orders roomy bypass_all sample_valid
                  sample_valid_reachable)
               (conj H1 H2)).
Defined.

Lemma stored_in_gbuf_exact_witness :
  fetch (sample_valid (F:=xnum)) = Some [(1, 1, 3); (2, 1, 3)]
  /\ dget de.FIL (stored_in_gbuf (sample_valid (F:=xnum)))
     = negb (dget de.FIL (sw_gbuf_bypass bypass_all))
       || (dget de.FIL (tidx [(1, 1, 3); (2, 1, 3)] BL.GBUF)
           <? dget de.FIL (tidx [(1, 1, 3); (2, 1, 3)] BL.REGF)).
Proof.
  assert (Hfe : fetch (sample_valid (F:=xnum)) = Some [(1, 1, 3); (2, 1, 3)])
    by by_evaluation.
  split; [exact Hfe|].
  exact (proj2 (stored_in_gbuf_exact (F:=xnum)
                  sample_nld sample_ti sample_to sample_tb
                  sample_orders roomy bypass_all sample_valid de.FIL
                  sample_valid_reachable)
               [(1, 1, 3); (2, 1, 3)] Hfe).
Defined.

Lemma invalid_record_is_inert_witness :
  is_valid (sample_invalid (F:=xnum)) = false
  /\ (forall k : call, after k (sample_invalid (F:=xnum)) = sample_invalid)
  /\ get_top_level_fetch (sample_invalid (F:=xnum)) = (inr None, sample_invalid)
  /\ get_scheme_dict (sample_invalid (F:=xnum)) = (inr None, sample_invalid).
Proof.
  assert (Hv : is_valid (sample_invalid (F:=xnum)) = false) by by_evaluation.
  split; [exact Hv|].
  exact (invalid_record_is_inert (F:=xnum) sample_invalid Hv).
Defined.

Lemma queries_raise_only_overflow_witness :
  (forall e,
      fst (get_access (sample_huge (F:=pynum))) = inl e
      \/ fst (get_top_level_fetch (sample_huge (F:=pynum))) = inl e
      \/ fst (get_scheme_dict (sample_huge (F:=pynum))) = inl e
      \/ (exists cost, fst (get_cost cost (sample_huge (F:=pynum))) = inl e) ->
      e = OverflowError /\ is_valid (sample_huge (F:=pynum)) = true)
  /\ fst (get_access (sample_huge (F:=pynum))) = inl OverflowError
  /\ forall e,
      fst (get_access (sample_valid (F:=xnum))) = inl e
      \/ fst (get_top_level_fetch (sample_valid (F:=xnum))) = inl e
      \/ fst (get_scheme_dict (sample_valid (F:=xnum))) = inl e
      \/ (exists cost, fst (get_cost cost (sample_valid (F:=xnum))) = inl e) ->
      e = OverflowError /\ is_valid (sample_valid (F:=xnum)) = true.
Proof.
  split; [|split].
  - exact (proj1 (queries_raise_only_overflow (F:=pynum)
                    sample_nld huge_ti huge_to huge_tb
                    sample_orders roomy bypass_all sample_huge
                    sample_huge_reachable)).
  - by_evaluation.
  - exact (proj1 (queries_raise_only_overflow (F:=xnum)
                    sample_nld sample_ti sample_to sample_tb
                    sample_orders roomy bypass_all sample_valid
                    sample_valid_reachable)).
Defined.

Lemma stats_are_memoized_witness :
  fst (get_access (after Call_get_scheme_dict (sample_valid (F:=xnum))))
  = fst (get_access (sample_valid (F:=xnum)))
  /\ after (Call_get_cost (unit_cost (F:=xnum)))
           (after Call_get_scheme_dict (sample_valid (F:=xnum)))
     = after Call_get_scheme_dict (sample_valid (F:=xnum)).
Proof.
  pose proof (stats_are_memoized (F:=xnum)
                sample_nld sample_ti sample_to sample_tb
                sample_orders roomy bypass_all sample_valid
                Call_get_scheme_dict (Call_get_cost (unit_cost (F:=xnum)))
                sample_valid_reachable eq_refl eq_refl)
    as (H1 & _ & _ & _ & H5).
  split; [exact H1 | exact H5].
Defined.

Lemma set_partition_occupation_after_read_witness :
  is_valid (sample_valid (F:=xnum)) = true
  /\ (forall r s',
         get_access (sample_valid (F:=xnum)) = (inr r, s') ->
         set_partition_occupation (Num (1 # 2)) s' = (inl AssertionError, s'))
  /\ is_valid (sample_huge (F:=pynum)) = true
  /\ get_access (sample_huge (F:=pynum))
     = (inl OverflowError, snd (get_access sample_huge))
  /\ fst (set_partition_occupation (PyFloat (Num (1 # 2)))
                                   (snd (get_access (sample_huge (F:=pynum)))))
     = inr tt.
Proof.
  assert (Hv : is_valid (sample_valid (F:=xnum)) = true) by by_evaluation.
  assert (Hv' : is_valid (sample_huge (F:=pynum)) = true) by by_evaluation.
  assert (Hov : get_access (sample_huge (F:=pynum))
                = (inl OverflowError, snd (get_access sample_huge)))
    by by_evaluation.
  split; [exact Hv|].
  split.
  { exact (proj1 (set_partition_occupation_after_read (F:=xnum)
                    sample_nld sample_ti sample_to sample_tb
                    sample_orders roomy bypass_all sample_valid (Num (1 # 2))
                    sample_valid_reachable Hv)). }
  split; [exact Hv'|]. split; [exact Hov|].
  pose proof (set_partition_occupation_after_read (F:=pynum)
                sample_nld huge_ti huge_to huge_tb
                sample_orders roomy bypass_all sample_huge
                (PyFloat (Num (1 # 2)))
                sample_huge_reachable Hv') as (_ & _ & _ & _ & H5).
  exact (proj2 (proj2 (H5 OverflowError (snd (get_access sample_huge))
                          (or_introl Hov)))).
Defined.

Lemma access_rows_witness :
  is_valid (sample_valid (F:=xnum)) = true
  /\ exists (acc : mtab (dtab xnum)) (st : Stats (F:=xnum)),
      fst (get_access (sample_valid (F:=xnum))) = inr (Some acc)
      /\ stats (sample_valid (F:=xnum)) = Some st
      /\ mul4 (dget de.OFM (mget me.REGF (nld_unit_access sample_nld)))
              (of_int (Util.prod sample_ti * Util.prod sample_to
                       * Util.prod sample_tb))
              (of_int 2)
              (part_occ st)
         = Some (dget de.OFM (mget me.REGF acc)).
Proof.
  assert (Hv : is_valid (sample_valid (F:=xnum)) = true) by by_evaluation.
  assert (Hret : exists acc,
             fst (get_access (sample_valid (F:=xnum))) = inr (Some acc))
    by (vm_compute; eexists; reflexivity).
  destruct Hret as (acc & Hret).
  split; [exact Hv|].
  destruct (access_rows (F:=xnum)
              sample_nld sample_ti sample_to sample_tb
              sample_orders roomy bypass_all sample_valid de.OFM acc
              sample_valid_reachable Hv Hret)
    as (st & fe & H2 & _ & H4 & _).
  exists acc, st. split; [exact Hret|]. split; [exact H2 | exact H4].
Defined.


Lemma unit_cnt_nesting_witness :
  dget de.IFM (tidx (unit_cnt (sample_valid (F:=xnum))) BL.GBUF)
  = zidx (tiling (sample_valid (F:=xnum)) (fst (related de.IFM))) 1
    * zidx (tiling (sample_valid (F:=xnum)) (snd (related de.IFM))) 1
    * dget de.IFM (tidx (unit_cnt (sample_valid (F:=xnum))) BL.REGF).
Proof.
  exact (proj1 (proj2 (unit_cnt_nesting (F:=xnum)
                         sample_nld sample_ti sample_to sample_tb
                         sample_orders roomy bypass_all sample_valid de.IFM
                         sample_valid_reachable))).
Defined.

Lemma fetch_inherits_witness :
  fetch (sample_valid (F:=xnum)) = Some [(1, 1, 3); (2, 1, 3)]
  /\ zidx (tiling (sample_valid (F:=xnum)) (fst (related de.IFM))) BL.REGF = 1
  /\ zidx (tiling (sample_valid (F:=xnum)) (snd (related de.IFM))) BL.REGF = 1
  /\ dget de.IFM (tidx [(1, 1, 3); (2, 1, 3)] BL.REGF)
     = dget de.IFM (tidx [(1, 1, 3); (2, 1, 3)] BL.GBUF).
Proof.
  assert (Hfe : fetch (sample_valid (F:=xnum)) = Some [(1, 1, 3); (2, 1, 3)])
    by by_evaluation.
  assert (H1 : zidx (tiling (sample_valid (F:=xnum)) (fst (related de.IFM)))
                    BL.REGF = 1) by by_evaluation.
  assert (H2 : zidx (tiling (sample_valid (F:=xnum)) (snd (related de.IFM)))
                    BL.REGF = 1) by by_evaluation.
  split; [exact Hfe|]. split; [exact H1|]. split; [exact H2|].
  exact (proj2 (fetch_inherits (F:=xnum)
                  sample_nld sample_ti sample_to sample_tb
                  sample_orders roomy bypass_all sample_valid
                  [(1, 1, 3); (2, 1, 3)] de.IFM
                  sample_valid_reachable Hfe)
               H1 H2).
Defined.

Lemma fetch_bounds_witness :
  fetch (sample_valid (F:=xnum)) = Some [(1, 1, 3); (2, 1, 3)]
  /\ 1 <= dget de.FIL (tidx [(1, 1, 3); (2, 1, 3)] BL.GBUF)
     <= dget de.FIL (tidx [(1, 1, 3); (2, 1, 3)] BL.REGF).
Proof.
  assert (Hfe : fetch (sample_valid (F:=xnum)) = Some [(1, 1, 3); (2, 1, 3)])
    by by_evaluation.
  assert (H : all_pos sample_ti = true /\ all_pos sample_to = true
              /\ all_pos sample_tb = true)
    by (repeat split; by_evaluation).
  destruct H as (P1 & P2 & P3).
  split; [exact Hfe|].
  exact (fetch_bounds (F:=xnum)
           sample_nld sample_ti sample_to sample_tb
           sample_orders roomy bypass_all sample_valid
           [(1, 1, 3); (2, 1, 3)] de.FIL
           sample_valid_reachable Hfe P1 P2 P3).
Defined.

Lemma innermost_nontrivial_loop_spec_witness :
  _innermost_nontrivial_loop (sample_valid (F:=xnum)) BL.GBUF = Some le.BAT
  /\ zidx (tiling (sample_valid (F:=xnum)) le.BAT) BL.GBUF <> 1
  /\ forall l',
      zidx (tiling (sample_valid (F:=xnum)) l') BL.GBUF <> 1 ->
      lget le.BAT (oidx (orders (sample_valid (F:=xnum))) BL.GBUF)
      < lget l' (oidx (orders (sample_valid (F:=xnum))) BL.GBUF)
      \/ (lget le.BAT (oidx (orders (sample_valid (F:=xnum))) BL.GBUF)
          = lget l' (oidx (orders (sample_valid (F:=xnum))) BL.GBUF)
          /\ le.to_Z le.BAT <= le.to_Z l').
Proof.
  assert (Hin : _innermost_nontrivial_loop (sample_valid (F:=xnum)) BL.GBUF
                = Some le.BAT) by by_evaluation.
  split; [exact Hin|].
  exact (proj2 (innermost_nontrivial_loop_spec (F:=xnum) sample_valid BL.GBUF)
               le.BAT Hin).
Defined.

Lemma data_size_bounds_witness :
  0 <= data_size_of (sample_valid (F:=xnum)) BL.REGF de.OFM
    <= data_size (sample_valid (F:=xnum)) BL.REGF
  /\ (dget de.OFM (stored_in_gbuf (sample_valid (F:=xnum))) = false ->
      data_size_of (sample_valid (F:=xnum)) BL.GBUF de.OFM = 0).
Proof.
  assert (H : all_pos sample_ti = true /\ all_pos sample_to = true
              /\ all_pos sample_tb = true)
    by (repeat split; by_evaluation).
  destruct H as (P1 & P2 & P3).
  assert (U1 : forall c', 0 <= dget c' (usize_gbuf (sample_nld (F:=xnum))))
    by (intros c'; destruct c'; by_evaluation).
  assert (U2 : forall c', 0 <= dget c' (usize_regf (sample_nld (F:=xnum))))
    by (intros c'; destruct c'; by_evaluation).
  assert (Hbl : (BL.REGF < BL.NUM)%nat) by (vm_compute; lia).
  exact (data_size_bounds (F:=xnum)
           sample_nld sample_ti sample_to sample_tb
           sample_orders roomy bypass_all sample_valid BL.REGF de.OFM
           sample_valid_reachable P1 P2 P3 U1 U2 Hbl).
Defined.



Lemma fresh_record_defaults_witness :
  init (F:=xnum) sample_nld sample_ti sample_to sample_tb
       sample_orders roomy bypass_all = inr sample_valid
  /\ is_valid (sample_valid (F:=xnum)) = true
  /\ exists st : Stats (F:=xnum),
      stats (sample_valid (F:=xnum)) = Some st
      /\ part_occ st = fone
      /\ finalized_stats st = false
      /\ fst (set_partition_occupation (Num (1 # 2))
                                       (sample_valid (F:=xnum))) = inr tt.
Proof.
  assert (Hinit : init (F:=xnum) sample_nld sample_ti sample_to sample_tb
                       sample_orders roomy bypass_all = inr sample_valid)
    by by_evaluation.
  assert (Hv : is_valid (sample_valid (F:=xnum)) = true) by by_evaluation.
  split; [exact Hinit|]. split; [exact Hv|].
  exact (fresh_record_defaults (F:=xnum)
           sample_nld sample_ti sample_to sample_tb
           sample_orders roomy bypass_all sample_valid (Num (1 # 2))
           Hinit Hv).
Defined.

Lemma occupation_takes_effect_witness :
  is_valid (sample_valid (F:=xnum)) = true
  /\ exists d : SchemeDict (F:=xnum),
      fst (get_scheme_dict
             (after (Call_set_partition_occupation (Num (1 # 2)))
                    (sample_valid (F:=xnum))))
      = inr (Some d)
      /\ sd_part_occ d = Num (1 # 2)
      /\ mul3 (nld_unit_ops sample_nld)
              (of_int (Util.prod sample_ti * Util.prod sample_to
                       * Util.prod sample_tb))
              (Num (1 # 2))
         = Some (sd_ops d).
Proof.
  assert (Hv : is_valid (sample_valid (F:=xnum)) = true) by by_evaluation.
  assert (Hst : stats (sample_valid (F:=xnum))
                = Some (fresh_stats (sample_nld (F:=xnum))))
    by by_evaluation.
  assert (Hd : exists d,
             fst (get_scheme_dict
                    (after (Call_set_partition_occupation (Num (1 # 2)))
                           (sample_valid (F:=xnum))))
             = inr (Some d))
    by (vm_compute; eexists; reflexivity).
  destruct Hd as (d & Hd).
  split; [exact Hv|].
  destruct (occupation_takes_effect (F:=xnum)
              sample_nld sample_ti sample_to sample_tb
              sample_orders roomy bypass_all sample_valid
              (fresh_stats sample_nld) (Num (1 # 2)) d
              sample_valid_reachable Hv Hst eq_refl Hd)
    as (H1 & H2 & _).
  exists d. split; [exact Hd|]. split; [exact H1 | exact H2].
Defined.
